(** * pushbullet-sms-mcp: SMS ingestion, store and wait engine

    A shallow embedding of [src/index.js].  JavaScript strings are
    sequences of UTF-16 code units, numbers that the program only uses as
    whole values are [Z], the module-level array [smsMessages] and the
    wall clock are threaded through a [World] record, and a thrown
    exception is a constructor of the result type of the function that
    throws.  The builtins [String.prototype.toLowerCase] and [Date.parse]
    are parameters of the section that holds the code using them. *)

From Stdlib Require Import ZArith NArith List Bool Lia Ascii String.
From Stdlib Require Import DecimalString.
From Stdlib Require DecimalZ Permutation.
Import ListNotations.

Open Scope Z_scope.

(* ================================================================== *)
(** ** JavaScript strings *)

Module JsString.

(** A string value: its UTF-16 code units. *)
Definition jsstring := list N.

(** A string literal of the source, written with ASCII characters. *)
Definition js (s : string) : jsstring :=
  map N_of_ascii (list_ascii_of_string s).

Arguments js s%_string.

Definition eqb (a b : jsstring) : bool :=
  if list_eq_dec N.eq_dec a b then true else false.

(** [s.startsWith(p)] *)
Fixpoint startsWith (p s : jsstring) : bool :=
  match p, s with
  | [], _ => true
  | _ :: _, [] => false
  | a :: p', b :: s' => N.eqb a b && startsWith p' s'
  end.

(** [s.includes(p)] *)
Fixpoint includes (s p : jsstring) : bool :=
  startsWith p s ||
  match s with
  | [] => false
  | _ :: s' => includes s' p
  end.

(** Truthiness of a possibly absent string: [undefined] and [""] are falsy. *)
Definition truthy (o : option jsstring) : bool :=
  match o with
  | Some (_ :: _) => true
  | _ => false
  end.

(** [o || dflt] for a possibly absent string. *)
Definition orDefault (o : option jsstring) (dflt : jsstring) : jsstring :=
  match o with
  | Some (c :: s) => c :: s
  | _ => dflt
  end.

(** A template-literal hole [${o}] for a possibly absent string. *)
Definition interp (o : option jsstring) : jsstring :=
  match o with
  | Some s => s
  | None => js "undefined"
  end.

(** [String(n)], as a template literal writes it, for a whole number [n]
    of magnitude below 10^21: plain decimal digits.  From 10^21 on
    JavaScript writes exponent notation ("1e+21"), which this function
    does not; what is stated of the text of a number is stated for
    numbers below that bound. *)
Definition ofZ (n : Z) : jsstring :=
  js (NilZero.string_of_int (Z.to_int n)).

(** [String(b)] *)
Definition ofBool (b : bool) : jsstring :=
  if b then js "true" else js "false".

(** [parts.join(sep)] *)
Fixpoint join (sep : jsstring) (parts : list jsstring) : jsstring :=
  match parts with
  | [] => []
  | [p] => p
  | p :: rest => p ++ sep ++ join sep rest
  end.

(** [a.slice(0, e)] on an array: a negative [e] counts from the end. *)
Definition slice0 {A} (a : list A) (e : Z) : list A :=
  let len := Z.of_nat (List.length a) in
  let fin := if e <? 0 then Z.max (len + e) 0 else Z.min e len in
  firstn (Z.to_nat fin) a.

End JsString.
Import JsString.

(* ================================================================== *)
(** ** Regular expressions

    The fragment of ECMAScript regular expressions that the patterns of
    [extractVerificationCode] are written in, with the backtracking
    semantics of [RegExp.prototype.exec]: leftmost start, greedy
    quantifiers, first success wins. *)

Module Regex.

(** Character sets. *)
Inductive cset :=
| CChar (c : N)            (* a literal character *)
| CDigit                   (* \d *)
| CSpace                   (* \s *)
| CUnion (a b : cset).     (* [ab] *)

(** Pattern items, in sequence.  A capture group [( ... )] is the pair
    of its parentheses around the items between them. *)
Inductive node :=
| NBoundary                                    (* \b *)
| NRep (cs : cset) (lo : nat) (hi : option nat) (* cs{lo,hi}; no hi: cs{lo,} *)
| NOpen                                        (* ( *)
| NClose.                                      (* ) *)

Record regex := { nodes : list node; ignoreCase : bool }.

(** \d is [0-9]. *)
Definition isDigit (c : N) : bool := (N.leb 48 c && N.leb c 57)%N.

(** \s: WhiteSpace and LineTerminator code points. *)
Definition isSpace (c : N) : bool :=
  (N.leb 9 c && N.leb c 13)%N || N.eqb c 32 || N.eqb c 160 ||
  N.eqb c 5760 || (N.leb 8192 c && N.leb c 8202)%N ||
  N.eqb c 8232 || N.eqb c 8233 || N.eqb c 8239 || N.eqb c 8287 ||
  N.eqb c 12288 || N.eqb c 65279.

(** \w is [A-Za-z0-9_]; the position before the first and after the
    last character counts as a non-word character. *)
Definition isWord (o : option N) : bool :=
  match o with
  | None => false
  | Some c =>
      ((N.leb 65 c && N.leb c 90) || (N.leb 97 c && N.leb c 122) ||
       isDigit c || N.eqb c 95)%N
  end.

(** Canonicalize of a non-unicode, case-insensitive pattern.  A code
    unit from 128 on is never mapped below 128, so against the ASCII
    literals of the patterns only the ASCII letters fold. *)
Definition canonicalize (c : N) : N :=
  if (N.leb 97 c && N.leb c 122)%N then (c - 32)%N else c.

Fixpoint inSet (ic : bool) (cs : cset) (c : N) : bool :=
  match cs with
  | CChar x => if ic then N.eqb (canonicalize x) (canonicalize c) else N.eqb x c
  | CDigit => isDigit c
  | CSpace => isSpace c
  | CUnion a b => inSet ic a c || inSet ic b c
  end.

Definition underHi (n : nat) (hi : option nat) : bool :=
  match hi with
  | None => true
  | Some h => Nat.ltb n h
  end.

(** Characters consumed while a group is open are recorded, newest first. *)
Definition record (c : N) (grp : option jsstring) : option jsstring :=
  option_map (cons c) grp.

(** A quantified character set, greedy: take one more character while
    the upper bound and the set allow it, and on failure of what follows
    give the characters back one by one, down to the lower bound.
    [k] is the rest of the pattern; [n] counts the characters taken,
    [prev] is the code unit before the current position, [grp] the open
    group (reversed). *)
Fixpoint repeatSet (ic : bool) (cs : cset) (lo : nat) (hi : option nat)
    (k : option N -> jsstring -> option jsstring -> option (option jsstring))
    (s : jsstring) (prev : option N) (grp : option jsstring) (n : nat)
  : option (option jsstring) :=
  let stop := if Nat.leb lo n then k prev s grp else None in
  match s with
  | c :: s' =>
      if underHi n hi && inSet ic cs c then
        match repeatSet ic cs lo hi k s' (Some c) (record c grp) (S n) with
        | Some r => Some r
        | None => stop
        end
      else stop
  | [] => stop
  end.

(** The matcher at one start position.  [s] is the rest of the input and
    [cap] the last closed group.  The result is [Some cap] on success:
    group 1 of the match. *)
Fixpoint matchNodes (ic : bool) (ns : list node) (prev : option N)
    (s : jsstring) (grp cap : option jsstring) {struct ns}
  : option (option jsstring) :=
  match ns with
  | [] => Some cap
  | NBoundary :: ns' =>
      if xorb (isWord prev) (isWord (hd_error s))
      then matchNodes ic ns' prev s grp cap
      else None
  | NOpen :: ns' => matchNodes ic ns' prev s (Some []) cap
  | NClose :: ns' => matchNodes ic ns' prev s None (option_map (@rev N) grp)
  | NRep cs lo hi :: ns' =>
      repeatSet ic cs lo hi
        (fun prev' s' grp' => matchNodes ic ns' prev' s' grp' cap)
        s prev grp 0%nat
  end.

(** [re.exec(s)] for a pattern without the global flag: the first start
    position, left to right, at which the matcher succeeds. *)
Fixpoint execFrom (re : regex) (prev : option N) (s : jsstring)
  : option (option jsstring) :=
  match matchNodes (ignoreCase re) (nodes re) prev s None None with
  | Some r => Some r
  | None =>
      match s with
      | [] => None
      | c :: s' => execFrom re (Some c) s'
      end
  end.

(** [text.match(re)], reduced to what the caller reads: [None] is
    [null], [Some g] a match whose element [1] is [g]. *)
Definition String_match (text : jsstring) (re : regex)
  : option (option jsstring) :=
  execFrom re None text.

(** A run of literal characters. *)
Definition lits (s : string) : list node :=
  map (fun c => NRep (CChar c) 1 (Some 1%nat)) (js s).
Arguments lits s%_string.

Definition digits (lo hi : nat) : list node :=
  [NOpen; NRep CDigit lo (Some hi); NClose].

End Regex.
Import Regex.

(* ================================================================== *)
(** ** CodeExtractor *)

(** /\b(\d{6})\b/ *)
Definition pat_6_digits : regex :=
  {| nodes := [NBoundary] ++ digits 6 6 ++ [NBoundary]; ignoreCase := false |}.
(** /\b(\d{4})\b/ *)
Definition pat_4_digits : regex :=
  {| nodes := [NBoundary] ++ digits 4 4 ++ [NBoundary]; ignoreCase := false |}.
(** /\b(\d{8})\b/ *)
Definition pat_8_digits : regex :=
  {| nodes := [NBoundary] ++ digits 8 8 ++ [NBoundary]; ignoreCase := false |}.
(** /code[:\s]+(\d{4,8})/i *)
Definition pat_code : regex :=
  {| nodes := lits "code" ++ [NRep (CUnion (CChar 58) CSpace) 1 None] ++ digits 4 8;
     ignoreCase := true |}.
(** /(\d{4,8})\s+is your/i *)
Definition pat_is_your : regex :=
  {| nodes := digits 4 8 ++ [NRep CSpace 1 None] ++ lits "is your";
     ignoreCase := true |}.
(** /verify[:\s]+(\d{4,8})/i *)
Definition pat_verify : regex :=
  {| nodes := lits "verify" ++ [NRep (CUnion (CChar 58) CSpace) 1 None] ++ digits 4 8;
     ignoreCase := true |}.

Definition patterns : list regex :=
  [pat_6_digits; pat_4_digits; pat_8_digits; pat_code; pat_is_your; pat_verify].

(** The loop [for (const pattern of patterns)] of [extractVerificationCode]. *)
Fixpoint firstMatch (ps : list regex) (text : jsstring) : option jsstring :=
  match ps with
  | [] => None
  | pattern :: rest =>
      match String_match text pattern with
      | Some group1 => group1
      | None => firstMatch rest text
      end
  end.

Definition extractVerificationCode (text : jsstring) : option jsstring :=
  firstMatch patterns text.

(* ================================================================== *)
(** ** Dates *)

Inductive Error := TypeError | RangeError.

(** The completion of a computation that may throw. *)
Inductive Completion (A : Type) :=
| Normal (a : A)
| Throw (e : Error).
Arguments Normal {A} a.
Arguments Throw {A} e.

Module JsDate.

Definition msPerDay : Z := 86400000.
Definition maxTime : Z := 8640000000000000.

(** The time value of [new Date(x)] for a number [x]; [None] is [NaN]
    (an absent number, or one outside the range of time values). *)
Definition TimeClip (x : option Z) : option Z :=
  match x with
  | Some t => if Z.abs t <=? maxTime then Some t else None
  | None => None
  end.

(** [x * 1000] on a possibly absent number ([undefined * 1000] is [NaN]). *)
Definition times1000 (x : option Z) : option Z :=
  option_map (fun s => s * 1000) x.

(** Year, month and day of the proleptic Gregorian calendar for a day
    number counted from 1970-01-01. *)
Definition civil (day : Z) : Z * Z * Z :=
  let z := day + 719468 in
  let era := z / 146097 in
  let doe := z - era * 146097 in
  let yoe := (doe - doe / 1460 + doe / 36524 - doe / 146096) / 365 in
  let doy := doe - (365 * yoe + yoe / 4 - yoe / 100) in
  let mp := (5 * doy + 2) / 153 in
  let d := doy - (153 * mp + 2) / 5 + 1 in
  let m := if mp <? 10 then mp + 3 else mp - 9 in
  let y := yoe + era * 400 + (if m <=? 2 then 1 else 0) in
  (y, m, d).

(** [n] in decimal, padded with zeros to [w] digits. *)
Fixpoint pad (w : nat) (n : Z) : jsstring :=
  match w with
  | O => []
  | S w' => pad w' (n / 10) ++ [Z.to_N (48 + n mod 10)]
  end.

(** The year of an ISO instant: four digits, or a sign and six digits
    outside 0..9999. *)
Definition isoYear (y : Z) : jsstring :=
  if (0 <=? y) && (y <=? 9999) then pad 4 y
  else if y <? 0 then js "-" ++ pad 6 (- y)
  else js "+" ++ pad 6 y.

(** YYYY-MM-DDTHH:mm:ss.sssZ for a time value in milliseconds. *)
Definition formatISO (t : Z) : jsstring :=
  let '(y, m, d) := civil (t / msPerDay) in
  let ms := t mod msPerDay in
  isoYear y ++ js "-" ++ pad 2 m ++ js "-" ++ pad 2 d ++ js "T" ++
  pad 2 (ms / 3600000) ++ js ":" ++ pad 2 (ms / 60000 mod 60) ++ js ":" ++
  pad 2 (ms / 1000 mod 60) ++ js "." ++ pad 3 (ms mod 1000) ++ js "Z".

(** [new Date(x).toISOString()]: a RangeError on an invalid date. *)
Definition toISOString (x : option Z) : Completion jsstring :=
  match TimeClip x with
  | Some t => Normal (formatISO t)
  | None => Throw RangeError
  end.

End JsDate.

(* ================================================================== *)
(** ** Data model *)

(** A stored message, as the three ingestion paths build it. *)
Record Sms := mkSms {
  id : jsstring;
  sender : jsstring;
  body : jsstring;
  timestamp : jsstring;
  threadId : option jsstring;
  app : option jsstring
}.

(** An entry of [push.notifications].  The relay also delivers
    [timestamp] (whole seconds); no handler reads it. *)
Module Notif.
Record t := mk {
  thread_id : option jsstring;
  title : option jsstring;
  body : option jsstring;
  timestamp : option Z
}.
End Notif.

(** A push, as carried by a stream frame or listed by [/v2/pushes]. *)
Module Push.
Record t := mk {
  type : option jsstring;
  notifications : option (list Notif.t);
  package_name : option jsstring;
  title : option jsstring;
  body : option jsstring;
  application_name : option jsstring;
  modified : option Z
}.
End Push.

(** A parsed WebSocket frame. *)
Module Frame.
Record t := mk {
  type : option jsstring;
  subtype : option jsstring;
  push : option Push.t
}.
End Frame.

Module Device.
Record t := mk { has_sms : bool; active : bool; iden : option jsstring }.
End Device.

Module Thread.
Record recipient := mkRecipient {
  name : option jsstring;
  number : option jsstring
}.
Record latest_t := mkLatest {
  body : option jsstring;
  timestamp : option Z
}.
Record t := mk {
  id : jsstring;
  recipients : option (list recipient);
  latest : option latest_t
}.
End Thread.

(** The outcome of one HTTP exchange: the request or the JSON decoding
    failed, or a response arrived with its [ok] flag and its payload. *)
Inductive Fetched (A : Type) :=
| FetchFailed
| Response (ok : bool) (payload : option (list A)).
Arguments FetchFailed {A}.
Arguments Response {A} ok payload.

(** The filter object of [waitForSms]. *)
Record Filter := mkFilter {
  f_sender : option jsstring;
  f_contains : option jsstring;
  f_hasCode : bool
}.

(** The module-level state: the array [smsMessages], the flag
    [wsConnected], the number of clock readings taken so far and the
    number of [fetchRecentPushes] calls started by tickles. *)
Record World := mkWorld {
  smsMessages : list Sms;
  wsConnected : bool;
  clockReads : nat;
  fetchesStarted : nat
}.

Definition MAX_STORED_MESSAGES : nat := 100.

Definition initialWorld : World :=
  {| smsMessages := []; wsConnected := false; clockReads := 0; fetchesStarted := 0 |}.

Definition setStore (w : World) (store : list Sms) : World :=
  {| smsMessages := store; wsConnected := wsConnected w;
     clockReads := clockReads w; fetchesStarted := fetchesStarted w |}.

Definition optEq (o : option jsstring) (lit : jsstring) : bool :=
  match o with
  | Some s => JsString.eqb s lit
  | None => false
  end.

(* ================================================================== *)
(** ** MessageStore *)

(** The loop [while (smsMessages.length > MAX_STORED_MESSAGES) smsMessages.pop()];
    every round shortens the array, so its length bounds the rounds. *)
Fixpoint popWhileOver (rounds : nat) (store : list Sms) : list Sms :=
  match rounds with
  | O => store
  | S r =>
      if Nat.ltb MAX_STORED_MESSAGES (List.length store)
      then popWhileOver r (removelast store)
      else store
  end.

(** [addSmsMessage]: [unshift], then the eviction loop.  There is no
    test on [sms.id] here. *)
Definition addSmsMessage (sms : Sms) (store : list Sms) : list Sms :=
  let store1 := sms :: store in
  popWhileOver (List.length store1) store1.

(** [smsMessages.find(s => s.id === i)] *)
Definition findById (i : jsstring) (store : list Sms) : option Sms :=
  find (fun s => JsString.eqb (id s) i) store.

(* ================================================================== *)
(** ** Ingestion, wait and tool handlers *)

(** What the event loop delivers to the program.  Each constructor is one
    synchronous run of program code: a socket callback, the part of
    [fetchRecentPushes] after its awaits, or the part of the
    [fetch_sms_threads] handler after [fetchSmsFromApi] resolved. *)
Inductive Event :=
| WsOpen
| WsClose
| WsMessage (msg : option Frame.t)          (* [None]: JSON.parse threw *)
| PushesFetched (r : Fetched Push.t)
| FetchThreadsCall (limit : option Z) (dev : Fetched Device.t)
                   (thr : Fetched Thread.t).

(** What [waitForSms] does, as far as the schedule given to it reaches. *)
Inductive WaitResult :=
| Returned (r : option Sms)      (* the promise resolved; [None] is [null] *)
| Rejected (e : Error)           (* the promise rejected *)
| Waiting.                       (* still suspended at the end of the schedule *)

Inductive ToolResult :=
| ToolText (text : jsstring)
| ToolError (e : Error).

Definition nl : jsstring := [10%N].

(** [[${sms.timestamp}] From: ${sms.sender}\n${sms.body}] *)
Definition formatSms (sms : Sms) : jsstring :=
  js "[" ++ timestamp sms ++ js "] From: " ++ sender sms ++ nl ++ body sms.

Definition formatAll (messages : list Sms) : jsstring :=
  join (nl ++ nl ++ js "---" ++ nl ++ nl) (map formatSms messages).

(** [args.limit || dflt] *)
Definition limitOr (limit : option Z) (dflt : Z) : Z :=
  match limit with
  | Some 0 | None => dflt
  | Some l => l
  end.

(** [getDeviceIden]: the [iden] of the first active device with SMS. *)
Definition getDeviceIden (dev : Fetched Device.t) : option jsstring :=
  match dev with
  | FetchFailed => None
  | Response false _ => None
  | Response true None => None
  | Response true (Some devices) =>
      match find (fun d => Device.has_sms d && Device.active d) devices with
      | Some d => if truthy (Device.iden d) then Device.iden d else None
      | None => None
      end
  end.

(** [thread.recipients?.[0]?.name || thread.recipients?.[0]?.number || "Unknown"] *)
Definition threadSender (t : Thread.t) : jsstring :=
  let first := match Thread.recipients t with
               | Some (r :: _) => Some r
               | _ => None
               end in
  let name := match first with Some r => Thread.name r | None => None end in
  let number := match first with Some r => Thread.number r | None => None end in
  if truthy name then orDefault name [] else orDefault number (js "Unknown").

(** The loop of [fetchSmsFromApi] over the threads. *)
Fixpoint threadMessages (threads : list Thread.t) (messages : list Sms)
  : Completion (list Sms) :=
  match threads with
  | [] => Normal messages
  | thread :: rest =>
      match Thread.latest thread with
      | None => threadMessages rest messages
      | Some latest =>
          match JsDate.toISOString (JsDate.times1000 (Thread.timestamp latest)) with
          | Throw e => Throw e
          | Normal ts =>
              threadMessages rest
                (messages ++
                 [{| id := Thread.id thread;
                     sender := threadSender thread;
                     body := orDefault (Thread.body latest) [];
                     timestamp := ts;
                     threadId := Some (Thread.id thread);
                     app := None |}])
          end
      end
  end.

(** [fetchSmsFromApi(limit)]: every failure, thrown or not, gives []. *)
Definition fetchSmsFromApi (limit : Z) (dev : Fetched Device.t)
    (thr : Fetched Thread.t) : list Sms :=
  match getDeviceIden dev with
  | None => []
  | Some _ =>
      match thr with
      | FetchFailed => []
      | Response false _ => []
      | Response true threads =>
          match threadMessages (slice0 (match threads with
                                        | Some ts => ts
                                        | None => []
                                        end) limit) [] with
          | Normal messages => messages
          | Throw _ => []
          end
      end
  end.

(** The merge loop of the [fetch_sms_threads] handler:
    [if (!smsMessages.find(s => s.id === msg.id)) smsMessages.push(msg)]. *)
Fixpoint mergeThreads (messages : list Sms) (store : list Sms) : list Sms :=
  match messages with
  | [] => store
  | msg :: rest =>
      mergeThreads rest
        (match findById (id msg) store with
         | Some _ => store
         | None => store ++ [msg]
         end)
  end.

(** The [fetch_sms_threads] case of the tool handler. *)
Definition fetch_sms_threads (limit : option Z) (dev : Fetched Device.t)
    (thr : Fetched Thread.t) (w : World) : ToolResult * World :=
  let messages := fetchSmsFromApi (limitOr limit 20) dev thr in
  match messages with
  | [] =>
      (ToolText (js "No SMS threads found. Make sure SMS mirroring is enabled in the Pushbullet Android app."), w)
  | _ :: _ =>
      let w' := setStore w (mergeThreads messages (smsMessages w)) in
      (ToolText (js "Fetched " ++ ofZ (Z.of_nat (List.length messages)) ++
                 js " SMS thread(s):" ++ nl ++ nl ++ formatAll messages), w')
  end.

(** [${notif.thread_id}_${push.modified}], the id on the poll path. *)
Definition pollId (modified : option Z) (notif : Notif.t) : jsstring :=
  interp (Notif.thread_id notif) ++ js "_" ++
  match modified with Some m => ofZ m | None => js "undefined" end.

(** The body of the inner loop of [fetchRecentPushes] for one
    notification.  A thrown error leaves the loops; the array keeps what
    was added before. *)
Definition pollNotif (modified : option Z) (notif : Notif.t)
    (store : list Sms) : list Sms * option Error :=
  let existingId := pollId modified notif in
  match findById existingId store with
  | Some _ => (store, None)
  | None =>
      match JsDate.toISOString (JsDate.times1000 modified) with
      | Throw e => (store, Some e)
      | Normal ts =>
          (addSmsMessage
             {| id := existingId;
                sender := orDefault (Notif.title notif) (js "Unknown");
                body := orDefault (Notif.body notif) [];
                timestamp := ts;
                threadId := Notif.thread_id notif;
                app := None |} store, None)
      end
  end.

Fixpoint pollNotifs (modified : option Z) (notifs : list Notif.t)
    (store : list Sms) : list Sms * option Error :=
  match notifs with
  | [] => (store, None)
  | notif :: rest =>
      match pollNotif modified notif store with
      | (store', None) => pollNotifs modified rest store'
      | (store', Some e) => (store', Some e)
      end
  end.

Fixpoint pollPushes (pushes : list Push.t) (store : list Sms)
  : list Sms * option Error :=
  match pushes with
  | [] => (store, None)
  | push :: rest =>
      if optEq (Push.type push) (js "sms_changed") then
        match Push.notifications push with
        | Some notifs =>
            match pollNotifs (Push.modified push) notifs store with
            | (store', None) => pollPushes rest store'
            | (store', Some e) => (store', Some e)
            end
        | None => pollPushes rest store
        end
      else pollPushes rest store
  end.

(** [fetchRecentPushes], from the point where the response is there.
    Whatever is thrown is caught and logged. *)
Definition fetchRecentPushes (r : Fetched Push.t) (w : World) : World :=
  match r with
  | FetchFailed => w
  | Response false _ => w
  | Response true pushes =>
      setStore w (fst (pollPushes (match pushes with
                                   | Some ps => ps
                                   | None => []
                                   end) (smsMessages w)))
  end.

Section Engine.

(** The wall clock: the value of the n-th reading of [Date.now()] or
    [new Date()] since the process started. *)
Variable clock : nat -> Z.

(** [String.prototype.toLowerCase]. *)
Variable toLowerCase : jsstring -> jsstring.

(** [new Date(s).getTime()] for a string [s]; [None] is [NaN]. *)
Variable Date_parse : jsstring -> option Z.

(** [Date.now()] *)
Definition Date_now (w : World) : Z * World :=
  (clock (clockReads w),
   {| smsMessages := smsMessages w; wsConnected := wsConnected w;
      clockReads := S (clockReads w); fetchesStarted := fetchesStarted w |}).

(** The loop over [push.notifications] on the stream path: the id and
    the timestamp are two readings of the local clock. *)
Fixpoint streamNotifs (notifs : list Notif.t) (w : World) : World :=
  match notifs with
  | [] => w
  | notif :: rest =>
      let (t_id, w1) := Date_now w in
      let (t_ts, w2) := Date_now w1 in
      let sms :=
        {| id := interp (Notif.thread_id notif) ++ js "_" ++ ofZ t_id;
           sender := orDefault (Notif.title notif) (js "Unknown");
           body := orDefault (Notif.body notif) [];
           timestamp := JsDate.formatISO t_ts;
           threadId := Notif.thread_id notif;
           app := None |} in
      streamNotifs rest (setStore w2 (addSmsMessage sms (smsMessages w2)))
  end.

Definition streamMirror (push : Push.t) (w : World) : World :=
  let (t_id, w1) := Date_now w in
  let (t_ts, w2) := Date_now w1 in
  let sms :=
    {| id := js "mirror_" ++ ofZ t_id;
       sender := orDefault (Push.title push) (js "Unknown");
       body := orDefault (Push.body push) [];
       timestamp := JsDate.formatISO t_ts;
       threadId := None;
       app := Push.application_name push |} in
  setStore w2 (addSmsMessage sms (smsMessages w2)).

(** [handlePushbulletMessage].  A tickle starts [fetchRecentPushes];
    what that call does to the store happens at its [PushesFetched]. *)
Definition handlePushbulletMessage (msg : Frame.t) (w : World) : World :=
  if optEq (Frame.type msg) (js "tickle") && optEq (Frame.subtype msg) (js "push")
  then {| smsMessages := smsMessages w; wsConnected := wsConnected w;
          clockReads := clockReads w; fetchesStarted := S (fetchesStarted w) |}
  else if optEq (Frame.type msg) (js "push") then
    match Frame.push msg with
    | None => w
    | Some push =>
        let w1 :=
          if optEq (Push.type push) (js "sms_changed") then
            match Push.notifications push with
            | Some notifs => streamNotifs notifs w
            | None => w
            end
          else w in
        if optEq (Push.type push) (js "mirror") &&
           optEq (Push.package_name push) (js "com.android.mms")
        then streamMirror push w1
        else w1
    end
  else w.

(** One event of the event loop. *)
Definition step (w : World) (ev : Event) : World :=
  match ev with
  | WsOpen =>
      {| smsMessages := smsMessages w; wsConnected := true;
         clockReads := clockReads w; fetchesStarted := fetchesStarted w |}
  | WsClose =>
      {| smsMessages := smsMessages w; wsConnected := false;
         clockReads := clockReads w; fetchesStarted := fetchesStarted w |}
  | WsMessage None => w
  | WsMessage (Some msg) => handlePushbulletMessage msg w
  | PushesFetched r => fetchRecentPushes r w
  | FetchThreadsCall limit dev thr => snd (fetch_sms_threads limit dev thr w)
  end.

Definition run (w : World) (evs : list Event) : World := fold_left step evs w.

(** The states the program can be in. *)
Definition reachable (w : World) : Prop := exists evs, w = run initialWorld evs.

(** [sender.toLowerCase().includes(needle.toLowerCase())] *)
Definition includesIgnoreCase (hay needle : jsstring) : bool :=
  includes (toLowerCase hay) (toLowerCase needle).

(** [matchesFilter(sms, filter)]; [sms] is [None] when the caller read
    past the end of the array, and the first property read then throws. *)
Definition matchesFilter (sms : option Sms) (filter : Filter) : Completion bool :=
  match sms with
  | Some m =>
      if truthy (f_sender filter) &&
         negb (includesIgnoreCase (sender m) (orDefault (f_sender filter) []))
      then Normal false
      else if truthy (f_contains filter) &&
              negb (includesIgnoreCase (body m) (orDefault (f_contains filter) []))
      then Normal false
      else if f_hasCode filter then
        match extractVerificationCode (body m) with
        | Some (_ :: _) => Normal true
        | _ => Normal false
        end
      else Normal true
  | None =>
      if truthy (f_sender filter) then Throw TypeError
      else if truthy (f_contains filter) then Throw TypeError
      else if f_hasCode filter then Throw TypeError
      else Normal true
  end.

(** [!filter || matchesFilter(sms, filter)] *)
Definition passes (filter : option Filter) (sms : option Sms) : Completion bool :=
  match filter with
  | None => Normal true
  | Some f => matchesFilter sms f
  end.

(** The first loop of [waitForSms], over the stored messages. *)
Fixpoint scanExisting (filter : option Filter) (store : list Sms)
  : Completion (option Sms) :=
  match store with
  | [] => Normal None
  | sms :: rest =>
      match passes filter (Some sms) with
      | Throw e => Throw e
      | Normal true => Normal (Some sms)
      | Normal false => scanExisting filter rest
      end
  end.

(** The inner [for] loop of the polling phase, from index [i] for
    [rounds] rounds: [smsMessages[i]] is read without a bounds test. *)
Fixpoint scanNew (filter : option Filter) (startTime : Z) (store : list Sms)
    (i rounds : nat) : Completion (option Sms) :=
  match rounds with
  | O => Normal None
  | S rounds' =>
      let sms := nth_error store i in
      match passes filter sms with
      | Throw e => Throw e
      | Normal false => scanNew filter startTime store (S i) rounds'
      | Normal true =>
          match sms with
          | None => Throw TypeError
          | Some m =>
              match Date_parse (timestamp m) with
              | Some msgTime =>
                  if startTime - 60000 <? msgTime then Normal (Some m)
                  else scanNew filter startTime store (S i) rounds'
              | None => scanNew filter startTime store (S i) rounds'
              end
          end
      end
  end.

(** The bound [smsMessages.length - startMessageCount + 5] of that loop. *)
Definition scanBound (store : list Sms) (startMessageCount : nat) : nat :=
  Z.to_nat (Z.of_nat (List.length store) - Z.of_nat startMessageCount + 5).

(** The [while] loop of [waitForSms].  [sleeps] lists, for each
    one-second sleep, the events the event loop runs during it. *)
Fixpoint pollLoop (filter : option Filter) (timeoutMs startTime : Z)
    (startMessageCount : nat) (sleeps : list (list Event)) (w : World)
  : WaitResult * World :=
  let (now, w1) := Date_now w in
  if now - startTime <? timeoutMs then
    match sleeps with
    | [] => (Waiting, w1)
    | evs :: sleeps' =>
        let w2 := run w1 evs in
        match scanNew filter startTime (smsMessages w2) 0
                      (scanBound (smsMessages w2) startMessageCount) with
        | Throw e => (Rejected e, w2)
        | Normal (Some sms) => (Returned (Some sms), w2)
        | Normal None =>
            pollLoop filter timeoutMs startTime startMessageCount sleeps' w2
        end
    end
  else (Returned None, w1).

(** [waitForSms(filter, timeoutMs)] *)
Definition waitForSms (filter : option Filter) (timeoutMs : Z)
    (sleeps : list (list Event)) (w : World) : WaitResult * World :=
  let (startTime, w1) := Date_now w in
  let startMessageCount := List.length (smsMessages w1) in
  match scanExisting filter (smsMessages w1) with
  | Throw e => (Rejected e, w1)
  | Normal (Some sms) => (Returned (Some sms), w1)
  | Normal None =>
      pollLoop filter timeoutMs startTime startMessageCount sleeps w1
  end.

(** The [messages] of the [get_recent_sms] case: the slice, then the
    sender test on the slice. *)
Definition recentMessages (limit : option Z) (sender_arg : option jsstring)
    (store : list Sms) : list Sms :=
  let messages := slice0 store (limitOr limit 10) in
  if truthy sender_arg
  then filter (fun sms => includesIgnoreCase (sender sms) (orDefault sender_arg []))
              messages
  else messages.

(** The [get_recent_sms] case of the tool handler. *)
Definition get_recent_sms (limit : option Z) (sender_arg : option jsstring)
    (w : World) : ToolResult :=
  let messages := recentMessages limit sender_arg (smsMessages w) in
  match messages with
  | [] =>
      ToolText (js "No SMS messages found" ++
                (if truthy sender_arg
                 then js " from " ++ [34%N] ++ orDefault sender_arg [] ++ [34%N]
                 else []) ++
                js ". WebSocket connected: " ++ ofBool (wsConnected w) ++
                js ". Total stored: " ++
                ofZ (Z.of_nat (List.length (smsMessages w))))
  | _ :: _ =>
      ToolText (js "Found " ++ ofZ (Z.of_nat (List.length messages)) ++
                js " SMS message(s):" ++ nl ++ nl ++ formatAll messages)
  end.

(** The [wait_for_sms] case of the tool handler, up to the wording of
    its reply: the filter holds the truthy arguments only, and is [null]
    when it has no key. *)
Definition wait_for_sms (timeout_seconds : option Z)
    (sender_arg contains_arg : option jsstring) (has_code : bool)
    (sleeps : list (list Event)) (w : World) : WaitResult * World :=
  let timeoutMs := limitOr timeout_seconds 60 * 1000 in
  let flt :=
    {| f_sender := if truthy sender_arg then sender_arg else None;
       f_contains := if truthy contains_arg then contains_arg else None;
       f_hasCode := has_code |} in
  waitForSms
    (if truthy sender_arg || truthy contains_arg || has_code
     then Some flt else None)
    timeoutMs sleeps w.

End Engine.

(* ================================================================== *)
(** ** Instances of the runtime, to run the engine on concrete inputs *)

Module Runtime.

(** A clock that gives the listed readings, then stays at [last]. *)
Definition clockOf (readings : list Z) (last : Z) : nat -> Z :=
  fun n => nth n readings last.

(** [toLowerCase] on ASCII text: only A-Z change. *)
Definition asciiLower (s : jsstring) : jsstring :=
  map (fun c => if (N.leb 65 c && N.leb c 90)%N then (c + 32)%N else c) s.

(** The day number of a calendar date, counted from 1970-01-01. *)
Definition daysFromCivil (y m d : Z) : Z :=
  let y' := if m <=? 2 then y - 1 else y in
  let era := y' / 400 in
  let yoe := y' - era * 400 in
  let doy := (153 * (if 2 <? m then m - 3 else m + 9) + 2) / 5 + d - 1 in
  let doe := yoe * 365 + yoe / 4 - yoe / 100 + doy in
  era * 146097 + doe - 719468.

(** The value of a run of decimal digits; [None] if another character
    occurs. *)
Fixpoint number (acc : Z) (s : jsstring) : option Z :=
  match s with
  | [] => Some acc
  | c :: s' =>
      if isDigit c then number (acc * 10 + (Z.of_N c - 48)) s' else None
  end.

Definition field (s : jsstring) (from len : nat) : option Z :=
  let f := firstn len (skipn from s) in
  if Nat.eqb (List.length f) len then number 0 f else None.

Definition charAt (s : jsstring) (i : nat) (c : N) : bool :=
  match nth_error s i with
  | Some x => N.eqb x c
  | None => false
  end.

(** [Date.parse] on the format YYYY-MM-DDTHH:mm:ss.sssZ that
    [toISOString] writes for the years 0 to 9999. *)
Definition parseISO (s : jsstring) : option Z :=
  if Nat.eqb (List.length s) 24 && charAt s 4 45 && charAt s 7 45 &&
     charAt s 10 84 && charAt s 13 58 && charAt s 16 58 &&
     charAt s 19 46 && charAt s 23 90
  then
    match field s 0 4, field s 5 2, field s 8 2, field s 11 2,
          field s 14 2, field s 17 2, field s 20 3 with
    | Some y, Some mo, Some d, Some h, Some mi, Some sec, Some ms =>
        Some (daysFromCivil y mo d * JsDate.msPerDay +
              h * 3600000 + mi * 60000 + sec * 1000 + ms)
    | _, _, _, _, _, _, _ => None
    end
  else None.

End Runtime.

(* ================================================================== *)
(** ** Concrete inputs *)

Module Samples.

(** A clock standing at 2023-11-14T22:13:25.123Z. *)
Definition clock0 : nat -> Z := Runtime.clockOf [] 1700000005123.

(** A notification of thread [thread], as the relay sends it at
    1700000000 s. *)
Definition notif (thread : jsstring) (title body : string) : Notif.t :=
  Notif.mk (Some thread) (Some (js title)) (Some (js body)) (Some 1700000000).
Arguments notif thread (title body)%_string.

Definition smsChanged (modified : option Z) (notifs : list Notif.t) : Push.t :=
  Push.mk (Some (js "sms_changed")) (Some notifs) None None None None modified.

(** A stream frame [{type: "push", push: {type: "sms_changed", ...}}]. *)
Definition streamFrame (notifs : list Notif.t) : Event :=
  WsMessage (Some (Frame.mk (Some (js "push")) None
                            (Some (smsChanged None notifs)))).

(** One frame with two messages of the same thread. *)
Definition twoOfOneThread : Event :=
  streamFrame [notif (js "5") "Bank" "Your code is 482913";
               notif (js "5") "Bank" "Never share this code"].

(** A hundred frames, one message each, of the threads 0 to 99. *)
Definition hundredFrames : list Event :=
  map (fun n => streamFrame [notif (ofZ (Z.of_nat n)) "Alice" "hello"])
      (seq 0 100).

Definition ten : list Event := firstn 10 hundredFrames.

Definition devices : Fetched Device.t :=
  Response true (Some [Device.mk true true (Some (js "dev1"))]).

(** The thread list: one thread, its latest message sent by [name] at
    the second [sent]. *)
Definition threads (tid name text : string) (sent : Z) : Fetched Thread.t :=
  Response true
    (Some [Thread.mk (js tid)
             (Some [Thread.mkRecipient (Some (js name)) None])
             (Some (Thread.mkLatest (Some (js text)) (Some sent)))]).

Definition fetchThreads (tid name text : string) (sent : Z) : Event :=
  FetchThreadsCall None devices (threads tid name text sent).

(** A poll response with one push of one notification of thread 5. *)
Definition pollFive (modified : Z) : Fetched Push.t :=
  Response true
    (Some [smsChanged (Some modified)
             [notif (js "5") "Bank" "Your code is 482913"]]).

Definition fromBank : option Filter :=
  Some {| f_sender := Some (js "bank"); f_contains := None; f_hasCode := false |}.

End Samples.

(* ================================================================== *)
(** ** Notions used to describe a match *)

(** A pattern item outside the parentheses of the group. *)
Definition plain (n : node) : bool :=
  match n with
  | NOpen | NClose => false
  | _ => true
  end.

(** The open group after the characters [taken] were consumed. *)
Definition recordAll (taken : jsstring) (grp : option jsstring) : option jsstring :=
  option_map (fun acc => rev taken ++ acc) grp.

(** The code unit before the position reached after [taken]. *)
Definition lastOf (taken : jsstring) (prev : option N) : option N :=
  match rev taken with
  | c :: _ => Some c
  | [] => prev
  end.

(* ================================================================== *)
(** ** Predicates on the store *)

(** The ids of the stored messages, in the order of the array. *)
Definition ids (store : list Sms) : list jsstring := map id store.

(** The array is within [MAX_STORED_MESSAGES]. *)
Definition bounded (w : World) : Prop :=
  (List.length (smsMessages w) <= MAX_STORED_MESSAGES)%nat.

(* ================================================================== *)
(** ** The remaining tool handlers *)

(** The [extract_code_from_sms] case of the tool handler.  [args.text]
    absent makes [text.match] throw, which the handler catches and
    reports as an error. *)
Definition extract_code_from_sms (text : option jsstring) : ToolResult :=
  match text with
  | None => ToolError TypeError
  | Some t =>
      match extractVerificationCode t with
      | Some (c :: code) => ToolText (js "Extracted verification code: " ++ c :: code)
      | _ => ToolText (js "No verification code found in the provided text.")
      end
  end.

(** The [get_sms_status] case of the tool handler; [tokenConfigured] is
    the truthiness of [PUSHBULLET_API_TOKEN]. *)
Definition get_sms_status (tokenConfigured : bool) (w : World) : ToolResult :=
  ToolText (js "Pushbullet SMS Status:" ++ nl ++
            js "- WebSocket connected: " ++ ofBool (wsConnected w) ++ nl ++
            js "- Messages stored: " ++
            ofZ (Z.of_nat (List.length (smsMessages w))) ++ nl ++
            js "- Most recent: " ++
            orDefault (option_map timestamp (hd_error (smsMessages w))) (js "None") ++
            nl ++
            js "- API token configured: " ++
            (if tokenConfigured then js "Yes" else js "No")).

(* ================================================================== *)
(** ** Notions used to state properties of the handlers *)

(** The event is the resumption of a [fetch_sms_threads] call. *)
Definition isThreadsCall (ev : Event) : bool :=
  match ev with
  | FetchThreadsCall _ _ _ => true
  | _ => false
  end.

(** What a listing shows of a message: sender, body and thread. *)
Definition shown (sms : Sms) : jsstring * jsstring * option jsstring :=
  (sender sms, body sms, threadId sms).

(** What the stream path stores for a notification, the clock apart. *)
Definition shownOfNotif (notif : Notif.t) : jsstring * jsstring * option jsstring :=
  (orDefault (Notif.title notif) (js "Unknown"),
   orDefault (Notif.body notif) [],
   Notif.thread_id notif).

(** The frame is one of the two shapes from which the stream path
    builds messages. *)
Definition carriesSms (msg : Frame.t) : bool :=
  optEq (Frame.type msg) (js "push") &&
  match Frame.push msg with
  | None => false
  | Some push =>
      (optEq (Push.type push) (js "sms_changed") &&
       match Push.notifications push with Some _ => true | None => false end) ||
      (optEq (Push.type push) (js "mirror") &&
       optEq (Push.package_name push) (js "com.android.mms"))
  end.

(** The device counts for [getDeviceIden]. *)
Definition smsCapable (d : Device.t) : bool := Device.has_sms d && Device.active d.

(** The thread has a latest message whose timestamp is no valid date. *)
Definition badLatest (t : Thread.t) : bool :=
  match Thread.latest t with
  | Some la =>
      match JsDate.TimeClip (JsDate.times1000 (Thread.timestamp la)) with
      | Some _ => false
      | None => true
      end
  | None => false
  end.

Definition hasLatest (t : Thread.t) : bool :=
  match Thread.latest t with Some _ => true | None => false end.

(** The notifications of the [sms_changed] pushes of a poll response,
    each with the [modified] of its push, in the order of processing. *)
Fixpoint pollItems (pushes : list Push.t) : list (option Z * Notif.t) :=
  match pushes with
  | [] => []
  | push :: rest =>
      (if optEq (Push.type push) (js "sms_changed") then
         match Push.notifications push with
         | Some notifs => map (fun n => (Push.modified push, n)) notifs
         | None => []
         end
       else []) ++ pollItems rest
  end.

(** The [modified] of the item is a valid date, so that
    [toISOString] does not throw on it. *)
Definition dated (item : option Z * Notif.t) : bool :=
  match JsDate.TimeClip (JsDate.times1000 (fst item)) with
  | Some _ => true
  | None => false
  end.

(** The number, when there is one, is below 10^21 in magnitude, so that
    a template literal writes it in plain decimal digits, as [ofZ] does. *)
Definition plainNumber (x : option Z) : Prop :=
  match x with
  | Some n => Z.abs n < 10 ^ 21
  | None => True
  end.

(** The id that the poll path gives to the item. *)
Definition itemId (item : option Z * Notif.t) : jsstring :=
  pollId (fst item) (snd item).

(** The pattern [/\b(\d{k})\b/]. *)
Definition pat_bare (k : nat) : regex :=
  {| nodes := [NBoundary] ++ digits k k ++ [NBoundary]; ignoreCase := false |}.

(** A message as a listing can show it: it names a sender and carries a
    timestamp. *)
Definition presentable (sms : Sms) : Prop :=
  sender sms <> [] /\ timestamp sms <> [].

(* ================================================================== *)
(** * Properties *)

(** ** The store *)

Lemma eqb_eq a b : JsString.eqb a b = true <-> a = b.
Proof.
  unfold JsString.eqb. destruct (list_eq_dec N.eq_dec a b); split; congruence.
Qed.

Lemma eqb_refl a : JsString.eqb a a = true.
Proof. now apply eqb_eq. Qed.

Lemma popWhileOver_firstn rounds store :
  (List.length store - MAX_STORED_MESSAGES <= rounds)%nat ->
  popWhileOver rounds store = firstn MAX_STORED_MESSAGES store.
Proof.
  revert store.
  induction rounds as [|r IH]; intros store Hr; cbn [popWhileOver].
  - symmetry. apply firstn_all2. lia.
  - destruct (Nat.ltb MAX_STORED_MESSAGES (List.length store)) eqn:E.
    + apply Nat.ltb_lt in E.
      rewrite IH.
      * rewrite removelast_firstn_len, firstn_firstn.
        f_equal. lia.
      * rewrite removelast_firstn_len, length_firstn. lia.
    + apply Nat.ltb_ge in E.
      symmetry. apply firstn_all2. lia.
Qed.

(** [addSmsMessage] keeps the first hundred of the array it extended. *)
Lemma addSmsMessage_firstn sms store :
  addSmsMessage sms store = firstn MAX_STORED_MESSAGES (sms :: store).
Proof.
  unfold addSmsMessage. apply popWhileOver_firstn. lia.
Qed.

Lemma addSmsMessage_cons sms store :
  addSmsMessage sms store = sms :: firstn (MAX_STORED_MESSAGES - 1) store.
Proof. rewrite addSmsMessage_firstn. reflexivity. Qed.

Lemma addSmsMessage_length sms store :
  List.length (addSmsMessage sms store)
  = Nat.min MAX_STORED_MESSAGES (S (List.length store)).
Proof. rewrite addSmsMessage_firstn, length_firstn. reflexivity. Qed.

Lemma findById_None i store :
  findById i store = None <-> ~ In i (ids store).
Proof.
  unfold findById, ids.
  induction store as [|s store IH]; simpl.
  - tauto.
  - destruct (JsString.eqb (id s) i) eqn:E.
    + apply eqb_eq in E. split; [discriminate | tauto].
    + rewrite IH. split.
      * intros Hn [Hs | Hin]; [| tauto].
        rewrite Hs, eqb_refl in E. discriminate.
      * tauto.
Qed.

Lemma findById_Some i store :
  In i (ids store) -> exists s, findById i store = Some s.
Proof.
  intros Hin. destruct (findById i store) eqn:E; [eauto |].
  apply findById_None in E. contradiction.
Qed.

Lemma NoDup_firstn {A} n (l : list A) : NoDup l -> NoDup (firstn n l).
Proof.
  intros H. rewrite <- (firstn_skipn n l) in H.
  now apply NoDup_app_remove_r in H.
Qed.

Lemma In_firstn_In {A} n (l : list A) x : In x (firstn n l) -> In x l.
Proof.
  intros H. rewrite <- (firstn_skipn n l). apply in_or_app. now left.
Qed.

Lemma addSmsMessage_NoDup sms store :
  ~ In (id sms) (ids store) -> NoDup (ids store) ->
  NoDup (ids (addSmsMessage sms store)).
Proof.
  intros Hnew Hnd. rewrite addSmsMessage_firstn. unfold ids.
  rewrite <- firstn_map. apply NoDup_firstn.
  simpl. constructor; assumption.
Qed.

(** *** The poll path *)

Lemma pollNotif_known modified notif store :
  In (pollId modified notif) (ids store) ->
  pollNotif modified notif store = (store, None).
Proof.
  intros Hin. unfold pollNotif.
  destruct (findById_Some _ _ Hin) as [s ->]. reflexivity.
Qed.

Lemma pollNotif_NoDup modified notif store :
  NoDup (ids store) -> NoDup (ids (fst (pollNotif modified notif store))).
Proof.
  intros Hnd. unfold pollNotif.
  destruct (findById (pollId modified notif) store) eqn:E; [assumption |].
  destruct (JsDate.toISOString (JsDate.times1000 modified)); [| assumption].
  simpl. apply addSmsMessage_NoDup; [| assumption].
  simpl. now apply findById_None.
Qed.

Lemma pollNotifs_NoDup modified notifs store :
  NoDup (ids store) -> NoDup (ids (fst (pollNotifs modified notifs store))).
Proof.
  revert store.
  induction notifs as [|n notifs IH]; intros store Hnd; simpl; [assumption |].
  pose proof (pollNotif_NoDup modified n store Hnd) as H1.
  destruct (pollNotif modified n store) as [store' [e|]]; simpl in *.
  - assumption.
  - now apply IH.
Qed.

Lemma pollPushes_NoDup pushes store :
  NoDup (ids store) -> NoDup (ids (fst (pollPushes pushes store))).
Proof.
  revert store.
  induction pushes as [|p pushes IH]; intros store Hnd; simpl; [assumption |].
  destruct (optEq (Push.type p) (js "sms_changed")); [| now apply IH].
  destruct (Push.notifications p) as [notifs|]; [| now apply IH].
  pose proof (pollNotifs_NoDup (Push.modified p) notifs store Hnd) as H1.
  destruct (pollNotifs (Push.modified p) notifs store) as [store' [e|]];
    simpl in *; [assumption | now apply IH].
Qed.

Lemma fetchRecentPushes_NoDup r w :
  NoDup (ids (smsMessages w)) ->
  NoDup (ids (smsMessages (fetchRecentPushes r w))).
Proof.
  intros Hnd. destruct r as [|[|] pushes]; simpl; try assumption.
  now apply pollPushes_NoDup.
Qed.

(** *** The [fetch_sms_threads] merge *)

(** The merge only appends, and only ids the array does not hold yet. *)
Lemma mergeThreads_appends messages store :
  exists added,
    mergeThreads messages store = store ++ added /\
    (forall m, In m added -> In m messages /\ ~ In (id m) (ids store)) /\
    (NoDup (ids store) -> NoDup (ids (store ++ added))).
Proof.
  revert store.
  induction messages as [|msg rest IH]; intros store; simpl.
  - exists []. rewrite app_nil_r. split; [reflexivity |]. split; [contradiction | auto].
  - destruct (findById (id msg) store) eqn:E.
    + destruct (IH store) as (added & Heq & Hnew & Hnd).
      exists added. split; [assumption |]. split; [| assumption].
      intros m Hm. destruct (Hnew m Hm). tauto.
    + destruct (IH (store ++ [msg])) as (added & Heq & Hnew & Hnd).
      apply findById_None in E.
      exists (msg :: added). rewrite Heq, <- app_assoc. simpl.
      split; [reflexivity |]. split.
      * intros m [<- | Hm]; [tauto |].
        destruct (Hnew m Hm) as [Hin Hnot]. split; [tauto |].
        intros Hc. apply Hnot. unfold ids in *. rewrite map_app.
        apply in_or_app. now left.
      * intros Hs. change (store ++ msg :: added) with (store ++ [msg] ++ added).
        rewrite app_assoc. apply Hnd.
        unfold ids in *. rewrite map_app. simpl.
        apply NoDup_app; [assumption | constructor; [intros [] | constructor] |].
        intros x Hx [<- | []]. contradiction.
Qed.

Lemma mergeThreads_known msg store :
  In (id msg) (ids store) -> mergeThreads [msg] store = store.
Proof.
  intros Hin. simpl. destruct (findById_Some _ _ Hin) as [s ->]. reflexivity.
Qed.

Lemma fetch_sms_threads_store limit dev thr w :
  smsMessages (snd (fetch_sms_threads limit dev thr w))
  = mergeThreads (fetchSmsFromApi (limitOr limit 20) dev thr) (smsMessages w).
Proof.
  unfold fetch_sms_threads.
  destruct (fetchSmsFromApi (limitOr limit 20) dev thr); reflexivity.
Qed.

Lemma firstn_app_firstn {A} n (a b : list A) :
  firstn n (a ++ firstn n b) = firstn n (a ++ b).
Proof.
  rewrite !firstn_app, firstn_firstn. do 2 f_equal. lia.
Qed.

(** Messages handed to [addSmsMessage] one after the other: the array is
    the last hundred of them, the newest first. *)
Lemma addSmsMessage_all msgs store :
  (List.length store <= MAX_STORED_MESSAGES)%nat ->
  fold_left (fun st m => addSmsMessage m st) msgs store
  = firstn MAX_STORED_MESSAGES (rev msgs ++ store).
Proof.
  revert store.
  induction msgs as [|m msgs IH]; intros store Hlen; cbn [fold_left rev].
  - rewrite app_nil_l. symmetry. now apply firstn_all2.
  - rewrite IH.
    + rewrite addSmsMessage_firstn, firstn_app_firstn, <- app_assoc. reflexivity.
    + rewrite addSmsMessage_length. lia.
Qed.

(** Inserting 100 + k messages through [addSmsMessage] leaves exactly the
    100 inserted last; the k inserted first are gone. *)
Lemma addSmsMessage_evicts_oldest msgs k :
  List.length msgs = (MAX_STORED_MESSAGES + k)%nat ->
  fold_left (fun st m => addSmsMessage m st) msgs [] = rev (skipn k msgs) /\
  List.length (fold_left (fun st m => addSmsMessage m st) msgs [])
  = MAX_STORED_MESSAGES.
Proof.
  intros Hlen.
  assert (E : fold_left (fun st m => addSmsMessage m st) msgs [] = rev (skipn k msgs)).
  { rewrite addSmsMessage_all by (cbn [List.length]; lia).
    rewrite app_nil_r.
    rewrite <- (firstn_skipn k msgs) at 1.
    rewrite rev_app_distr, firstn_app.
    assert (Hs : List.length (rev (skipn k msgs)) = MAX_STORED_MESSAGES)
      by (rewrite length_rev, length_skipn; lia).
    rewrite Hs, Nat.sub_diag, (firstn_all2 (rev (skipn k msgs))) by lia.
    change (firstn 0 (rev (firstn k msgs))) with (@nil Sms).
    now rewrite app_nil_r. }
  split; [exact E |].
  rewrite E, length_rev, length_skipn. lia.
Qed.

Section Bound.
Variable clock : nat -> Z.

Lemma addSmsMessage_bounded sms store :
  (List.length (addSmsMessage sms store) <= MAX_STORED_MESSAGES)%nat.
Proof. rewrite addSmsMessage_length. lia. Qed.

Lemma streamNotifs_bounded notifs w :
  bounded w -> bounded (streamNotifs clock notifs w).
Proof.
  revert w. induction notifs as [|n notifs IH]; intros w Hw; [assumption |].
  cbn [streamNotifs Date_now]. apply IH. apply addSmsMessage_bounded.
Qed.

Lemma handlePushbulletMessage_bounded msg w :
  bounded w -> bounded (handlePushbulletMessage clock msg w).
Proof.
  intros Hw. unfold handlePushbulletMessage.
  destruct (_ && _); [assumption |].
  destruct (optEq (Frame.type msg) (js "push")); [| assumption].
  destruct (Frame.push msg) as [push|]; [| assumption].
  assert (H1 : bounded
                 (if optEq (Push.type push) (js "sms_changed")
                  then match Push.notifications push with
                       | Some notifs => streamNotifs clock notifs w
                       | None => w
                       end
                  else w)).
  { destruct (optEq (Push.type push) (js "sms_changed")); [| assumption].
    destruct (Push.notifications push); [| assumption].
    now apply streamNotifs_bounded. }
  destruct (_ && _); [| assumption].
  apply addSmsMessage_bounded.
Qed.

Lemma pollNotifs_bounded modified notifs store :
  (List.length store <= MAX_STORED_MESSAGES)%nat ->
  (List.length (fst (pollNotifs modified notifs store)) <= MAX_STORED_MESSAGES)%nat.
Proof.
  revert store.
  induction notifs as [|n notifs IH]; intros store Hs; cbn [pollNotifs]; [assumption |].
  assert (H1 : (List.length (fst (pollNotif modified n store))
                <= MAX_STORED_MESSAGES)%nat).
  { unfold pollNotif. destruct (findById _ store); [assumption |].
    destruct (JsDate.toISOString _); [| assumption].
    apply addSmsMessage_bounded. }
  destruct (pollNotif modified n store) as [store' [e|]]; cbn [fst] in *.
  - assumption.
  - now apply IH.
Qed.

Lemma pollPushes_bounded pushes store :
  (List.length store <= MAX_STORED_MESSAGES)%nat ->
  (List.length (fst (pollPushes pushes store)) <= MAX_STORED_MESSAGES)%nat.
Proof.
  revert store.
  induction pushes as [|p pushes IH]; intros store Hs; cbn [pollPushes]; [assumption |].
  destruct (optEq (Push.type p) (js "sms_changed")); [| now apply IH].
  destruct (Push.notifications p) as [notifs|]; [| now apply IH].
  pose proof (pollNotifs_bounded (Push.modified p) notifs store Hs) as H1.
  destruct (pollNotifs (Push.modified p) notifs store) as [store' [e|]];
    cbn [fst] in *; [assumption | now apply IH].
Qed.

(** Stream frames and poll responses keep the array within the bound. *)
Lemma stream_and_poll_bounded ev w :
  (forall limit dev thr, ev <> FetchThreadsCall limit dev thr) ->
  bounded w -> bounded (step clock w ev).
Proof.
  intros Hev Hw. destruct ev as [| |[msg|]|r|limit dev thr]; cbn [step];
    try assumption.
  - now apply handlePushbulletMessage_bounded.
  - destruct r as [|[|] pushes]; cbn [fetchRecentPushes]; try assumption.
    now apply pollPushes_bounded.
  - now destruct (Hev limit dev thr).
Qed.

End Bound.

(* ================================================================== *)
(** ** C1: insertion of a known id *)

(** C1 at a stream frame with two notifications of thread 5 that is
    handled within one millisecond: both are stored under the id
    5_1700000005123.  The insertion of the second, whose id is present,
    is not a no-op, and a state the program reaches holds one id twice.
    The stream path has the id at hand and does not look it up, as the
    poll path and the merge do. *)
Lemma C1_stream_stores_same_id_twice :
  let w := run Samples.clock0 initialWorld [Samples.twoOfOneThread] in
  reachable Samples.clock0 w /\
  ids (smsMessages w) = [js "5_1700000005123"; js "5_1700000005123"] /\
  map body (smsMessages w)
  = [js "Never share this code"; js "Your code is 482913"] /\
  ~ NoDup (ids (smsMessages w)).
Proof.
  cbv zeta. split; [now exists [Samples.twoOfOneThread] |].
  split; [vm_compute; reflexivity |].
  split; [vm_compute; reflexivity |].
  assert (E : ids (smsMessages (run Samples.clock0 initialWorld [Samples.twoOfOneThread]))
              = [js "5_1700000005123"; js "5_1700000005123"])
    by (vm_compute; reflexivity).
  rewrite E. intros Hnd. inversion Hnd as [|x l Hx Hl]; subst.
  apply Hx. now left.
Qed.

(** The guard that the stream path lacks.  On the poll path and in the
    [fetch_sms_threads] merge a notification or thread whose id is stored
    leaves the array as it is, whatever the array holds, also ids that
    occur twice; and both paths keep the stored ids pairwise distinct
    when they were so before. *)
Lemma guarded_paths_skip_known_ids :
  (forall modified notif store,
      plainNumber modified ->
      In (pollId modified notif) (ids store) ->
      pollNotif modified notif store = (store, None)) /\
  (forall msg store, In (id msg) (ids store) -> mergeThreads [msg] store = store) /\
  (forall r w, NoDup (ids (smsMessages w)) ->
               NoDup (ids (smsMessages (fetchRecentPushes r w)))) /\
  (forall limit dev thr w,
      NoDup (ids (smsMessages w)) ->
      NoDup (ids (smsMessages (snd (fetch_sms_threads limit dev thr w))))).
Proof.
  repeat split.
  - intros modified notif store _. apply pollNotif_known.
  - intros msg store. apply mergeThreads_known.
  - intros r w. apply fetchRecentPushes_NoDup.
  - intros limit dev thr w Hnd. rewrite fetch_sms_threads_store.
    destruct (mergeThreads_appends (fetchSmsFromApi (limitOr limit 20) dev thr)
                                   (smsMessages w)) as (added & -> & _ & H).
    now apply H.
Qed.

(** The two notifications of the frame above, listed by a poll instead:
    the second has the id of the first and is not stored.  And on the
    store that the frame left, with its id held twice, a poll that lists
    a stored id still changes nothing. *)
Lemma guarded_paths_skip_known_ids_example :
  let notifs := [Samples.notif (js "5") "Bank" "Your code is 482913";
                 Samples.notif (js "5") "Bank" "Never share this code"] in
  let polled := fetchRecentPushes
                  (Response true (Some [Samples.smsChanged (Some 1700000000) notifs]))
                  initialWorld in
  let streamed := run Samples.clock0 initialWorld [Samples.twoOfOneThread] in
  map body (smsMessages polled) = [js "Your code is 482913"] /\
  pollNotif (Some 1700000005123) (Samples.notif (js "5") "Bank" "again")
            (smsMessages streamed) = (smsMessages streamed, None).
Proof.
  cbv zeta. split; [vm_compute; reflexivity |].
  apply (proj1 guarded_paths_skip_known_ids).
  - cbn [plainNumber]. vm_compute. reflexivity.
  - vm_compute. now left.
Defined.

(* ================================================================== *)
(** ** C2: the bound of the store *)

(** C2 at a full store: a hundred stream messages fill the array, and a
    [fetch_sms_threads] call that brings one unknown thread leaves 101
    messages in it.  The next stream message brings it back to 100 by
    dropping the merged thread, the newest entry, together with the
    oldest stream message. *)
Theorem C2_threads_merge_exceeds_bound :
  let full := run Samples.clock0 initialWorld Samples.hundredFrames in
  let merged := step Samples.clock0 full
                     (Samples.fetchThreads "t1" "Bank" "Your code is 482913" 1700000000) in
  let next := step Samples.clock0 merged
                   (Samples.streamFrame [Samples.notif (js "100") "Alice" "hello"]) in
  List.length (smsMessages full) = 100%nat /\
  List.length (smsMessages merged) = 101%nat /\
  List.length (smsMessages next) = 100%nat /\
  findById (js "t1") (smsMessages next) = None /\
  (exists sms, findById (js "1_1700000005123") (smsMessages next) = Some sms).
Proof.
  cbv zeta. repeat split; try (vm_compute; reflexivity).
  eexists. vm_compute. reflexivity.
Qed.

(* ================================================================== *)
(** ** C3: the order of the listing *)

(** C3 after a merge: ten stream messages, then a [fetch_sms_threads]
    call that brings an unknown thread.  The merged message is the last
    one inserted, yet the listing puts it behind all the others, and with
    the default limit of ten it is not listed at all. *)
Theorem C3_merged_thread_listed_last :
  let w := run Samples.clock0 initialWorld
               (Samples.ten ++
                [Samples.fetchThreads "t1" "Bank" "Your code is 482913" 1700000000]) in
  last (ids (recentMessages Runtime.asciiLower (Some 11) None (smsMessages w))) []
  = js "t1" /\
  hd [] (ids (recentMessages Runtime.asciiLower (Some 11) None (smsMessages w)))
  = js "9_1700000005123" /\
  List.length (recentMessages Runtime.asciiLower None None (smsMessages w)) = 10%nat /\
  ~ In (js "t1") (ids (recentMessages Runtime.asciiLower None None (smsMessages w))).
Proof.
  cbv zeta. repeat split; try (vm_compute; reflexivity).
  vm_compute. intros H.
  repeat (destruct H as [H | H]; [discriminate H |]). exact H.
Qed.

(* ================================================================== *)
(** ** C10: the merge leaves stored messages alone *)

Lemma filter_none {A} (f : A -> bool) (l : list A) :
  (forall x, In x l -> f x = false) -> filter f l = [].
Proof.
  induction l as [|x l IH]; intros H; cbn [filter]; [reflexivity |].
  rewrite (H x (or_introl eq_refl)). apply IH.
  intros y Hy. apply H. now right.
Qed.

(** C10: a [fetch_sms_threads] call only appends to the array, and only
    messages whose id the array did not hold; so the stored messages
    stand unchanged at their positions, and for a thread whose id is
    stored, the messages under that id are the same before and after. *)
Theorem C10_merge_keeps_stored_messages
    (limit : option Z) (dev : Fetched Device.t) (thr : Fetched Thread.t)
    (w : World) :
  let store := smsMessages w in
  let store' := smsMessages (snd (fetch_sms_threads limit dev thr w)) in
  (exists added,
      store' = store ++ added /\
      forall m, In m added -> ~ In (id m) (ids store)) /\
  (forall i s, nth_error store i = Some s -> nth_error store' i = Some s) /\
  (forall t, In t (ids store) ->
             filter (fun s => JsString.eqb (id s) t) store'
             = filter (fun s => JsString.eqb (id s) t) store).
Proof.
  cbv zeta. rewrite fetch_sms_threads_store.
  destruct (mergeThreads_appends (fetchSmsFromApi (limitOr limit 20) dev thr)
                                 (smsMessages w)) as (added & -> & Hnew & _).
  split; [| split].
  - exists added. split; [reflexivity |]. intros m Hm. now destruct (Hnew m Hm).
  - intros i s Hi. rewrite nth_error_app1; [assumption |].
    apply nth_error_Some. congruence.
  - intros t Ht. rewrite filter_app.
    rewrite (filter_none (fun s => JsString.eqb (id s) t) added).
    + apply app_nil_r.
    + intros m Hm. destruct (JsString.eqb (id m) t) eqn:E; [| reflexivity].
      apply eqb_eq in E. subst t. now destruct (Hnew m Hm).
Qed.

(* ================================================================== *)
(** ** The wait *)

Section Wait.
Variable clock : nat -> Z.
Variable toLowerCase : jsstring -> jsstring.
Variable Date_parse : jsstring -> option Z.

(** Reading past the end of the array throws, whatever the filter. *)
Lemma passes_undefined filter :
  passes toLowerCase filter None = Throw TypeError \/
  passes toLowerCase filter None = Normal true.
Proof.
  destruct filter as [f|]; cbn; [| now right].
  destruct (truthy (f_sender f)); [now left |].
  destruct (truthy (f_contains f)); [now left |].
  destruct (f_hasCode f); [now left | now right].
Qed.

(** A stored message never makes the filter throw. *)
Lemma passes_defined filter sms :
  exists b, passes toLowerCase filter (Some sms) = Normal b.
Proof.
  destruct filter as [f|]; [| now exists true].
  unfold passes, matchesFilter.
  repeat match goal with
         | |- context [if ?c then _ else _] => destruct c
         end; eauto.
  destruct (extractVerificationCode (body sms)) as [[|c code]|]; eauto.
Qed.

Lemma scanExisting_none filter sms rest :
  scanExisting toLowerCase filter (sms :: rest) = Normal None ->
  passes toLowerCase filter (Some sms) = Normal false /\
  scanExisting toLowerCase filter rest = Normal None.
Proof.
  cbn [scanExisting].
  destruct (passes toLowerCase filter (Some sms)) as [[|]|e];
    try discriminate. auto.
Qed.

(** When no message from position [length before] on passes the filter
    and the loop runs for more rounds than there are such messages, it
    reads [smsMessages[length]], which is [undefined], and throws. *)
Lemma scanNew_overrun filter startTime before rest rounds :
  scanExisting toLowerCase filter rest = Normal None ->
  (List.length rest < rounds)%nat ->
  scanNew toLowerCase Date_parse filter startTime (before ++ rest)
          (List.length before) rounds
  = Throw TypeError.
Proof.
  revert before rounds.
  induction rest as [|sms rest IH]; intros before rounds Hnone Hlen;
    (destruct rounds as [|rounds]; [cbn in Hlen; lia |]);
    cbn [scanNew].
  - rewrite app_nil_r.
    replace (nth_error before (List.length before)) with (@None Sms)
      by (symmetry; apply nth_error_None; lia).
    destruct (passes_undefined filter) as [-> | ->]; reflexivity.
  - rewrite nth_error_app2, Nat.sub_diag by lia. cbn [nth_error].
    destruct (scanExisting_none _ _ _ Hnone) as [-> Hrest].
    replace (before ++ sms :: rest) with ((before ++ [sms]) ++ rest)
      by (now rewrite <- app_assoc).
    replace (S (List.length before)) with (List.length (before ++ [sms]))
      by (rewrite length_app; cbn; lia).
    apply IH; [assumption | cbn in Hlen; lia].
Qed.

(** What the inner loop returns passed the filter, sits in the array
    and is less than a minute older than the start of the wait. *)
Lemma scanNew_found filter startTime store i rounds sms :
  scanNew toLowerCase Date_parse filter startTime store i rounds
  = Normal (Some sms) ->
  In sms store /\ passes toLowerCase filter (Some sms) = Normal true /\
  exists msgTime,
    Date_parse (timestamp sms) = Some msgTime /\ startTime - 60000 < msgTime.
Proof.
  revert i. induction rounds as [|rounds IH]; intros i; cbn [scanNew].
  - discriminate.
  - destruct (passes toLowerCase filter (nth_error store i)) as [[|]|e] eqn:Hp;
      [| apply IH | discriminate].
    destruct (nth_error store i) as [m|] eqn:Hn; [| discriminate].
    destruct (Date_parse (timestamp m)) as [msgTime|] eqn:Ht; [| apply IH].
    destruct (startTime - 60000 <? msgTime) eqn:Hf; [| apply IH].
    intros [= <-]. split; [eapply nth_error_In; eauto |].
    split; [assumption |].
    exists msgTime. split; [assumption | now apply Z.ltb_lt].
Qed.

Lemma pollLoop_found filter timeoutMs startTime count sleeps w sms :
  fst (pollLoop clock toLowerCase Date_parse filter timeoutMs startTime
                count sleeps w) = Returned (Some sms) ->
  passes toLowerCase filter (Some sms) = Normal true /\
  exists msgTime,
    Date_parse (timestamp sms) = Some msgTime /\ startTime - 60000 < msgTime.
Proof.
  revert w. induction sleeps as [|evs sleeps IH]; intros w;
    cbn [pollLoop Date_now];
    destruct (_ <? timeoutMs); cbn [fst]; try discriminate.
  destruct (scanNew toLowerCase Date_parse filter startTime _ 0 _)
    as [[m|]|e] eqn:Hs; cbn [fst].
  - intros [= <-]. now apply scanNew_found in Hs.
  - apply IH.
  - discriminate.
Qed.

(** The first loop returns the first stored message that passes the
    filter, and then nothing of the schedule is waited for. *)
Lemma waitForSms_existing filter timeoutMs sleeps w before sms rest :
  smsMessages w = before ++ sms :: rest ->
  scanExisting toLowerCase filter before = Normal None ->
  passes toLowerCase filter (Some sms) = Normal true ->
  fst (waitForSms clock toLowerCase Date_parse filter timeoutMs sleeps w)
  = Returned (Some sms).
Proof.
  intros Hstore Hbefore Hsms. unfold waitForSms. cbn [Date_now smsMessages].
  rewrite Hstore.
  assert (E : scanExisting toLowerCase filter (before ++ sms :: rest)
              = Normal (Some sms)).
  { clear Hstore. induction before as [|b before IH].
    - simpl. now rewrite Hsms.
    - destruct (scanExisting_none _ _ _ Hbefore) as [Hb Hrest].
      simpl. rewrite Hb. now apply IH. }
  now rewrite E.
Qed.

(** With five or more messages stored at the start, no round reads past
    the end of the array: the wait does not throw. *)
Lemma scanNew_in_range filter startTime store i rounds :
  (i + rounds <= List.length store)%nat ->
  exists r, scanNew toLowerCase Date_parse filter startTime store i rounds = Normal r.
Proof.
  revert i. induction rounds as [|rounds IH]; intros i Hi; cbn [scanNew].
  - now exists None.
  - destruct (nth_error store i) as [m|] eqn:Hn;
      [| apply nth_error_None in Hn; lia].
    destruct (passes_defined filter m) as [[|] ->].
    + destruct (Date_parse (timestamp m)) as [msgTime|]; [| apply IH; lia].
      destruct (startTime - 60000 <? msgTime); [now exists (Some m) | apply IH; lia].
    + apply IH. lia.
Qed.

Lemma pollLoop_long_store_no_throw filter timeoutMs startTime count sleeps w e :
  (5 <= count)%nat ->
  fst (pollLoop clock toLowerCase Date_parse filter timeoutMs startTime
                count sleeps w) <> Rejected e.
Proof.
  intros Hcount. revert w.
  induction sleeps as [|evs sleeps IH]; intros w;
    cbn [pollLoop Date_now];
    destruct (_ <? timeoutMs); cbn [fst]; try discriminate.
  match goal with
  | |- context [scanNew _ _ _ _ ?st 0 ?b] =>
      destruct (scanNew_in_range filter startTime st 0 b) as [[m|] ->];
      [unfold scanBound; lia | cbn [fst]; discriminate | apply IH]
  end.
Qed.

(** The same for [waitForSms] as a whole: when the first loop found
    nothing, what is returned is fresh with respect to the clock reading
    taken at the start. *)
Lemma waitForSms_polled_is_fresh filter timeoutMs sleeps w sms :
  scanExisting toLowerCase filter (smsMessages w) = Normal None ->
  fst (waitForSms clock toLowerCase Date_parse filter timeoutMs sleeps w)
  = Returned (Some sms) ->
  exists msgTime,
    Date_parse (timestamp sms) = Some msgTime /\
    clock (clockReads w) - 60000 < msgTime.
Proof.
  intros Hnone. unfold waitForSms. cbn [Date_now smsMessages].
  rewrite Hnone. intros Hret. now apply pollLoop_found in Hret.
Qed.

(** *** C4 *)

(** C4 on a store of fewer than five messages: when no stored message
    passes the filter, the timeout has not run out at the first test of
    the loop, and the first sleep brings no message that passes the
    filter either, the first round of the polling loop reads past the
    end of the array and [waitForSms] rejects with a TypeError instead
    of returning [null] at the timeout. *)
Theorem C4_wait_on_short_store_throws
    (filter : option Filter) (timeoutMs : Z)
    (evs : list Event) (sleeps : list (list Event)) (w : World) :
  (List.length (smsMessages w) < 5)%nat ->
  scanExisting toLowerCase filter (smsMessages w) = Normal None ->
  clock (S (clockReads w)) - clock (clockReads w) < timeoutMs ->
  scanExisting toLowerCase filter
    (smsMessages (run clock (snd (Date_now clock (snd (Date_now clock w)))) evs))
  = Normal None ->
  fst (waitForSms clock toLowerCase Date_parse filter timeoutMs
                  (evs :: sleeps) w) = Rejected TypeError.
Proof.
  intros Hshort Hnone Htime Hafter.
  unfold waitForSms.
  cbn [Date_now smsMessages clockReads pollLoop snd] in *.
  rewrite Hnone.
  cbn [Date_now smsMessages clockReads pollLoop snd].
  apply Z.ltb_lt in Htime. rewrite Htime.
  set (store2 := smsMessages (run clock _ evs)) in *.
  pose proof (scanNew_overrun filter (clock (clockReads w)) [] store2
                (scanBound store2 (List.length (smsMessages w))) Hafter) as H.
  change ([] ++ store2) with store2 in H.
  change (List.length (@nil Sms)) with 0%nat in H.
  rewrite H; [reflexivity |].
  unfold scanBound. lia.
Qed.

(** *** C6 *)

(** C6: whatever the polling phase returns has a timestamp later than
    sixty seconds before the start of the wait; so a message whose
    timestamp is that old or older (or is no date) is never returned by
    it, even when it passes the filter. *)
Theorem C6_polling_returns_only_fresh
    (filter : option Filter) (timeoutMs startTime : Z)
    (startMessageCount : nat) (sleeps : list (list Event)) (w : World)
    (sms : Sms) :
  fst (pollLoop clock toLowerCase Date_parse filter timeoutMs startTime
                startMessageCount sleeps w)
  = Returned (Some sms) ->
  (exists msgTime,
      Date_parse (timestamp sms) = Some msgTime /\
      startTime - 60000 < msgTime) /\
  (forall stale,
      match Date_parse (timestamp stale) with
      | Some msgTime => msgTime <= startTime - 60000
      | None => True
      end ->
      stale <> sms).
Proof.
  intros Hret.
  destruct (pollLoop_found _ _ _ _ _ _ _ Hret) as (_ & t & Ht & Hfresh).
  split; [eauto |].
  intros stale Hstale ->. rewrite Ht in Hstale. lia.
Qed.

End Wait.

(** No stored message, no filter, a timeout of two seconds and nothing
    arriving: the first round throws. *)
Lemma C4_wait_on_short_store_throws_witness :
  fst (waitForSms Samples.clock0 Runtime.asciiLower Runtime.parseISO
                  None 2000 [[]] initialWorld) = Rejected TypeError /\
  fst (waitForSms Samples.clock0 Runtime.asciiLower Runtime.parseISO
                  Samples.fromBank 2000 [[]; []; []] initialWorld)
  = Rejected TypeError.
Proof.
  split.
  - apply (C4_wait_on_short_store_throws Samples.clock0 Runtime.asciiLower
             Runtime.parseISO None 2000 [] [] initialWorld).
    + vm_compute. lia.
    + reflexivity.
    + vm_compute. reflexivity.
    + reflexivity.
  - apply (C4_wait_on_short_store_throws Samples.clock0 Runtime.asciiLower
             Runtime.parseISO Samples.fromBank 2000 [] [[]; []] initialWorld).
    + vm_compute. lia.
    + reflexivity.
    + vm_compute. reflexivity.
    + reflexivity.
Defined.

(** Ten stored messages from Alice, a wait for a message from the bank,
    and that message arriving on the stream during the first sleep: the
    first round returns it, and it is fresh. *)
Lemma C6_polling_returns_only_fresh_witness :
  let w := run Samples.clock0 initialWorld Samples.ten in
  let arrival := Samples.streamFrame
                   [Samples.notif (js "5") "Bank" "Your code is 482913"] in
  exists sms,
    fst (pollLoop Samples.clock0 Runtime.asciiLower Runtime.parseISO
                  Samples.fromBank 5000 1700000005123 10 [[arrival]] w)
    = Returned (Some sms) /\
    id sms = js "5_1700000005123" /\
    exists msgTime,
      Runtime.parseISO (timestamp sms) = Some msgTime /\
      1700000005123 - 60000 < msgTime.
Proof.
  cbv zeta. eexists. split; [vm_compute; reflexivity |].
  split; [reflexivity |].
  apply (C6_polling_returns_only_fresh Samples.clock0 Runtime.asciiLower
           Runtime.parseISO Samples.fromBank 5000 1700000005123 10
           [[Samples.streamFrame
               [Samples.notif (js "5") "Bank" "Your code is 482913"]]]
           (run Samples.clock0 initialWorld Samples.ten)).
  vm_compute. reflexivity.
Defined.

(* ================================================================== *)
(** ** C5: a message that arrives during the wait *)

(** C5 at two inputs.  (1) Empty store, a wait of five seconds for a
    message from the bank; the message arrives on the stream during the
    second sleep.  The round after the first sleep has already thrown.
    (2) Ten stored messages from Alice, the same wait; during the first
    sleep a [fetch_sms_threads] call merges a fresh message from the bank.
    It stands at index 10, the rounds read the indices 0 to 5, and the
    wait returns [null] when the five seconds are over. *)
Theorem C5_arrival_during_wait_not_returned :
  let arrival := Samples.streamFrame
                   [Samples.notif (js "5") "Bank" "Your code is 482913"] in
  let merge := Samples.fetchThreads "t1" "Bank" "Your code is 482913" 1700000000 in
  let ticking := fun n => 1700000005123 + 1000 * Z.of_nat (n - 20) in
  let w10 := run ticking initialWorld Samples.ten in
  let end1 := waitForSms Samples.clock0 Runtime.asciiLower Runtime.parseISO
                         Samples.fromBank 5000 [[]; [arrival]] initialWorld in
  let end2 := waitForSms ticking Runtime.asciiLower Runtime.parseISO
                         Samples.fromBank 5000 [[merge]; []; []; []] w10 in
  fst end1 = Rejected TypeError /\
  fst end2 = Returned None /\
  (exists sms,
      nth_error (smsMessages (snd end2)) 10 = Some sms /\
      passes Runtime.asciiLower Samples.fromBank (Some sms) = Normal true /\
      Runtime.parseISO (timestamp sms) = Some 1700000000000 /\
      1700000005123 - 60000 < 1700000000000).
Proof.
  cbv zeta. split; [vm_compute; reflexivity |].
  split; [vm_compute; reflexivity |].
  eexists. split; [vm_compute; reflexivity |].
  split; [vm_compute; reflexivity |].
  split; [vm_compute; reflexivity | lia].
Qed.

(* ================================================================== *)
(** ** The matcher *)

Lemma lastOf_cons c taken prev : lastOf (c :: taken) prev = lastOf taken (Some c).
Proof.
  unfold lastOf. cbn [rev].
  destruct (rev taken) as [|x l]; reflexivity.
Qed.

Lemma recordAll_cons c taken grp :
  recordAll (c :: taken) grp = recordAll taken (record c grp).
Proof.
  unfold recordAll, record. destruct grp as [acc|]; cbn [option_map rev]; [| reflexivity].
  now rewrite <- app_assoc.
Qed.

(** A successful repetition took a run [taken] of characters of the set,
    of a length within the bounds, and the rest of the pattern matched
    behind it. *)
Lemma repeatSet_success ic cs lo hi k s prev grp n r :
  repeatSet ic cs lo hi k s prev grp n = Some r ->
  exists taken rest,
    s = taken ++ rest /\
    forallb (inSet ic cs) taken = true /\
    (lo <= n + List.length taken)%nat /\
    (forall h, hi = Some h -> (n <= h)%nat -> (n + List.length taken <= h)%nat) /\
    k (lastOf taken prev) rest (recordAll taken grp) = Some r.
Proof.
  revert prev grp n.
  induction s as [|c s IH]; intros prev grp n; cbn [repeatSet].
  - destruct (Nat.leb lo n) eqn:Hlo; [| discriminate].
    intros Hk. exists [], []. apply Nat.leb_le in Hlo.
    repeat split; try assumption; cbn [List.length]; try lia.
    unfold recordAll, lastOf. cbn [rev List.app]. destruct grp; exact Hk.
  - assert (Hstop : (if Nat.leb lo n then k prev (c :: s) grp else None) = Some r ->
                    exists taken rest,
                      c :: s = taken ++ rest /\
                      forallb (inSet ic cs) taken = true /\
                      (lo <= n + List.length taken)%nat /\
                      (forall h, hi = Some h -> (n <= h)%nat ->
                                 (n + List.length taken <= h)%nat) /\
                      k (lastOf taken prev) rest (recordAll taken grp) = Some r).
    { destruct (Nat.leb lo n) eqn:Hlo; [| discriminate].
      intros Hk. exists [], (c :: s). apply Nat.leb_le in Hlo.
      repeat split; try assumption; cbn [List.length]; try lia.
      unfold recordAll, lastOf. cbn [rev List.app]. destruct grp; exact Hk. }
    destruct (underHi n hi && inSet ic cs c) eqn:Htake; [| exact Hstop].
    destruct (repeatSet ic cs lo hi k s (Some c) (record c grp) (S n)) as [r'|] eqn:Hrec;
      [| exact Hstop].
    intros [= <-].
    destruct (IH _ _ _ Hrec) as (taken & rest & Hs & Hset & Hlo & Hhi & Hk).
    apply andb_prop in Htake. destruct Htake as [Hunder Hin].
    exists (c :: taken), rest. subst s.
    split; [reflexivity |].
    split; [cbn [forallb]; now rewrite Hin, Hset |].
    split; [cbn [List.length]; lia |].
    split.
    + intros h -> Hn. cbn [underHi] in Hunder. apply Nat.ltb_lt in Hunder.
      cbn [List.length]. specialize (Hhi h eq_refl). lia.
    + now rewrite lastOf_cons, recordAll_cons.
Qed.

(** Items outside the group do not change the group that was closed. *)
Lemma matchNodes_plain ic ns prev s cap r :
  forallb plain ns = true ->
  matchNodes ic ns prev s None cap = Some r -> r = cap.
Proof.
  revert prev s.
  induction ns as [|n ns IH]; intros prev s Hplain; cbn [matchNodes].
  - now intros [= <-].
  - cbn [forallb] in Hplain. apply andb_prop in Hplain. destruct Hplain as [Hn Hns].
    destruct n as [|cs lo hi| |]; try discriminate Hn.
    + destruct (xorb _ _); [now apply IH | discriminate].
    + intros H. apply repeatSet_success in H.
      destruct H as (taken & rest & _ & _ & _ & _ & Hk).
      unfold recordAll in Hk. cbn [option_map] in Hk. now apply IH in Hk.
Qed.

(** Items before the group consume a prefix of the input. *)
Lemma matchNodes_prefix ic before group prev s cap r :
  forallb plain before = true ->
  matchNodes ic (before ++ group) prev s None cap = Some r ->
  exists pre rest prev',
    s = pre ++ rest /\ matchNodes ic group prev' rest None cap = Some r.
Proof.
  revert prev s.
  induction before as [|n before IH]; intros prev s Hplain; cbn [List.app matchNodes].
  - intros H. now exists [], s, prev.
  - cbn [forallb] in Hplain. apply andb_prop in Hplain. destruct Hplain as [Hn Hns].
    destruct n as [|cs lo hi| |]; try discriminate Hn.
    + destruct (xorb _ _); [now apply IH | discriminate].
    + intros H. apply repeatSet_success in H.
      destruct H as (taken & rest & -> & _ & _ & _ & Hk).
      unfold recordAll in Hk. cbn [option_map] in Hk.
      destruct (IH _ _ Hns Hk) as (pre & rest' & prev' & -> & Hm).
      exists (taken ++ pre), rest', prev'. now rewrite <- app_assoc.
Qed.

(** The group [(\d{lo,hi})] followed by items outside the group: group 1
    is the run of digits that the group took. *)
Lemma matchNodes_digits ic lo hi after prev s cap r :
  forallb plain after = true ->
  matchNodes ic (digits lo hi ++ after) prev s None cap = Some r ->
  exists code rest,
    s = code ++ rest /\ r = Some code /\
    forallb isDigit code = true /\
    (lo <= List.length code <= hi)%nat.
Proof.
  intros Hplain. unfold digits. cbn [List.app matchNodes].
  intros H. apply repeatSet_success in H.
  destruct H as (code & rest & -> & Hset & Hlo & Hhi & Hk).
  unfold recordAll in Hk. cbn [option_map] in Hk.
  apply matchNodes_plain in Hk; [| assumption].
  rewrite app_nil_r, rev_involutive in Hk.
  exists code, rest.
  split; [reflexivity |]. split; [exact Hk |]. split; [exact Hset |].
  specialize (Hhi hi eq_refl). lia.
Qed.

Lemma execFrom_success re prev s g :
  execFrom re prev s = Some g ->
  exists skipped rest prev',
    s = skipped ++ rest /\
    matchNodes (ignoreCase re) (nodes re) prev' rest None None = Some g.
Proof.
  revert prev. induction s as [|c s IH]; intros prev; cbn [execFrom].
  - destruct (matchNodes _ _ prev [] None None) eqn:Hm; [| discriminate].
    intros [= <-]. now exists [], [], prev.
  - destruct (matchNodes _ _ prev (c :: s) None None) eqn:Hm.
    + intros [= <-]. now exists [], (c :: s), prev.
    + intros H. destruct (IH _ H) as (skipped & rest & prev' & -> & Hm').
      now exists (c :: skipped), rest, prev'.
Qed.

(** Every pattern is items outside the group, the group of 4 to 8 digits
    (or of exactly 6, 4 or 8), and items outside the group. *)
Lemma patterns_shape re :
  In re patterns ->
  exists before lo hi after,
    nodes re = before ++ digits lo hi ++ after /\
    forallb plain before = true /\ forallb plain after = true /\
    (4 <= lo)%nat /\ (hi <= 8)%nat.
Proof.
  intros Hin. unfold patterns in Hin.
  repeat (destruct Hin as [<- | Hin]);
    [ exists [NBoundary], 6%nat, 6%nat, [NBoundary]
    | exists [NBoundary], 4%nat, 4%nat, [NBoundary]
    | exists [NBoundary], 8%nat, 8%nat, [NBoundary]
    | exists (lits "code" ++ [NRep (CUnion (CChar 58) CSpace) 1 None]), 4%nat, 8%nat, []
    | exists [], 4%nat, 8%nat, ([NRep CSpace 1 None] ++ lits "is your")
    | exists (lits "verify" ++ [NRep (CUnion (CChar 58) CSpace) 1 None]), 4%nat, 8%nat, []
    | destruct Hin ];
    (split; [vm_compute; reflexivity |]);
    (split; [vm_compute; reflexivity |]);
    (split; [vm_compute; reflexivity |]); lia.
Qed.

(** Group 1 of a match of one of the patterns is a run of 4 to 8 decimal
    digits of the text. *)
Lemma String_match_digits text re g :
  In re patterns ->
  String_match text re = Some g ->
  exists pre code post,
    text = pre ++ code ++ post /\ g = Some code /\
    forallb isDigit code = true /\
    (4 <= List.length code <= 8)%nat.
Proof.
  intros Hin Hm.
  destruct (patterns_shape re Hin) as (before & lo & hi & after & Hn & Hb & Ha & Hlo & Hhi).
  apply execFrom_success in Hm.
  destruct Hm as (skipped & rest & prev & -> & Hm).
  rewrite Hn in Hm.
  apply matchNodes_prefix in Hm; [| assumption].
  destruct Hm as (pre & rest' & prev' & -> & Hm).
  apply matchNodes_digits in Hm; [| assumption].
  destruct Hm as (code & post & -> & -> & Hd & Hlen).
  exists (skipped ++ pre), code, post.
  rewrite <- app_assoc. repeat split; try assumption; lia.
Qed.

Lemma firstMatch_digits ps text code :
  (forall re, In re ps -> In re patterns) ->
  firstMatch ps text = Some code ->
  exists pre post,
    text = pre ++ code ++ post /\
    forallb isDigit code = true /\
    (4 <= List.length code <= 8)%nat.
Proof.
  induction ps as [|p ps IH]; intros Hsub; cbn [firstMatch]; [discriminate |].
  destruct (String_match text p) as [g|] eqn:Hm.
  - intros ->.
    destruct (String_match_digits text p _ (Hsub p (or_introl eq_refl)) Hm)
      as (pre & code' & post & -> & [= <-] & Hd & Hlen).
    now exists pre, post.
  - apply IH. intros re Hre. apply Hsub. now right.
Qed.

(* ================================================================== *)
(** ** C7: the code extractor *)

Lemma firstMatch_skip before text ps :
  (forall p, In p before -> String_match text p = None) ->
  firstMatch (before ++ ps) text = firstMatch ps text.
Proof.
  induction before as [|b before IH]; intros Hnone; [reflexivity |].
  simpl. rewrite (Hnone b (or_introl eq_refl)).
  apply IH. intros p Hp. apply Hnone. now right.
Qed.

Lemma firstMatch_none ps text :
  (forall re, In re ps -> In re patterns) ->
  firstMatch ps text = None ->
  forall p, In p ps -> String_match text p = None.
Proof.
  induction ps as [|q ps IH]; intros Hsub; cbn [firstMatch]; [intros _ p [] |].
  destruct (String_match text q) as [g|] eqn:Hm.
  - intros ->.
    destruct (String_match_digits text q _ (Hsub q (or_introl eq_refl)) Hm)
      as (_ & code & _ & _ & Hg & _). discriminate Hg.
  - intros Hrest p [<- | Hp]; [assumption |].
    apply IH; [| assumption | assumption].
    intros re Hre. apply Hsub. now right.
Qed.

(** C7: the patterns are tried in the order 6 digits, 4 digits, 8 digits,
    "code", "is your", "verify"; the result is group 1 of the first
    pattern that matches, a run of 4 to 8 decimal digits of the text, and
    it is nothing exactly when no pattern matches.  On the three texts of
    the specification the results are as stated; in the second the phrase
    pattern matches too, and the 6-digit pattern wins. *)
Theorem C7_first_matching_pattern_wins (text : jsstring) :
  patterns = [pat_6_digits; pat_4_digits; pat_8_digits;
              pat_code; pat_is_your; pat_verify] /\
  (forall before pattern after group1,
      patterns = before ++ pattern :: after ->
      (forall p, In p before -> String_match text p = None) ->
      String_match text pattern = Some group1 ->
      extractVerificationCode text = group1) /\
  (extractVerificationCode text = None <->
   forall p, In p patterns -> String_match text p = None) /\
  (forall code,
      extractVerificationCode text = Some code ->
      exists pre post,
        text = pre ++ code ++ post /\
        forallb isDigit code = true /\
        (4 <= List.length code <= 8)%nat) /\
  extractVerificationCode (js "Your code is 482913") = Some (js "482913") /\
  extractVerificationCode (js "482913 is your verification code")
  = Some (js "482913") /\
  String_match (js "482913 is your verification code") pat_is_your
  = Some (Some (js "482913")) /\
  extractVerificationCode (js "Hello, how are you?") = None.
Proof.
  split; [reflexivity |]. split; [| split; [| split]].
  - intros before pattern after group1 Hsplit Hnone Hmatch.
    unfold extractVerificationCode. rewrite Hsplit, firstMatch_skip by assumption.
    simpl. now rewrite Hmatch.
  - unfold extractVerificationCode. split.
    + apply firstMatch_none. auto.
    + intros Hnone.
      rewrite <- (app_nil_r patterns), firstMatch_skip by assumption.
      reflexivity.
  - intros code. apply firstMatch_digits. auto.
  - repeat split; vm_compute; reflexivity.
Qed.

(** In "pin 1234 or 567890" the 4-digit pattern matches "1234", but the
    6-digit pattern comes first and gives "567890". *)
Lemma C7_first_matching_pattern_wins_witness :
  String_match (js "pin 1234 or 567890") pat_4_digits = Some (Some (js "1234")) /\
  extractVerificationCode (js "pin 1234 or 567890") = Some (js "567890") /\
  extractVerificationCode (js "verify 1234567890") = Some (js "12345678") /\
  extractVerificationCode (js "no digits") = None.
Proof.
  split; [vm_compute; reflexivity |]. split; [| split].
  - apply (proj1 (proj2 (C7_first_matching_pattern_wins (js "pin 1234 or 567890")))
             [] pat_6_digits
             [pat_4_digits; pat_8_digits; pat_code; pat_is_your; pat_verify]).
    + reflexivity.
    + intros p [].
    + vm_compute. reflexivity.
  - apply (proj1 (proj2 (C7_first_matching_pattern_wins (js "verify 1234567890")))
             [pat_6_digits; pat_4_digits; pat_8_digits; pat_code; pat_is_your]
             pat_verify []).
    + reflexivity.
    + intros p Hp.
      repeat (destruct Hp as [<- | Hp]; [vm_compute; reflexivity |]).
      destruct Hp.
    + vm_compute. reflexivity.
  - apply (proj1 (proj2 (proj2 (C7_first_matching_pattern_wins (js "no digits"))))).
    intros p Hp.
    repeat (destruct Hp as [<- | Hp]; [vm_compute; reflexivity |]).
    destruct Hp.
Defined.

(* ================================================================== *)
(** ** C8: the timestamp of a stored message *)





(* ================================================================== *)
(** ** C9: the sender filter of the listing *)

Lemma slice0_positive {A} (a : list A) (l : Z) :
  0 < l -> slice0 a l = firstn (Z.to_nat l) a.
Proof.
  intros Hl. unfold slice0.
  destruct (l <? 0) eqn:E; [apply Z.ltb_lt in E; lia |].
  destruct (Z.le_ge_cases l (Z.of_nat (List.length a))) as [Hle | Hge].
  - now rewrite Z.min_l.
  - rewrite Z.min_r, Nat2Z.id by assumption.
    rewrite !firstn_all2; [reflexivity | lia | lia].
Qed.

Lemma In_firstn_nth {A} n (l : list A) x :
  In x (firstn n l) -> exists i, (i < n)%nat /\ nth_error l i = Some x.
Proof.
  revert l. induction n as [|n IH]; intros [|y l]; simpl; try contradiction.
  intros [<- | Hin].
  - exists 0%nat. split; [lia | reflexivity].
  - destruct (IH l Hin) as (i & Hi & Hnth).
    exists (S i). split; [lia | assumption].
Qed.

(** The listing looks at the front of the array only.  For a positive
    [limit] (the argument, or 10 when the argument is absent or 0) the
    slice is the first [limit] entries of the array, the sender test is
    applied to that slice, and what is returned stands at an index below
    [limit]: a message from the wanted sender that stands further back in
    the array is not returned, however few messages the slice
    contributes. *)
Lemma listing_filters_the_slice
    (toLowerCase : jsstring -> jsstring)
    (limit : option Z) (sender_arg : option jsstring) (store : list Sms) :
  let l := limitOr limit 10 in
  let wanted := fun sms => includesIgnoreCase toLowerCase (sender sms)
                                              (orDefault sender_arg []) in
  0 < l ->
  slice0 store l = firstn (Z.to_nat l) store /\
  (truthy sender_arg = true ->
   recentMessages toLowerCase limit sender_arg store
   = filter wanted (firstn (Z.to_nat l) store)) /\
  forall sms, In sms (recentMessages toLowerCase limit sender_arg store) ->
              exists i, (i < Z.to_nat l)%nat /\ nth_error store i = Some sms.
Proof.
  cbv zeta. intros Hl. pose proof (slice0_positive store _ Hl) as E.
  split; [exact E |]. unfold recentMessages. rewrite E. split.
  - now intros ->.
  - intros sms. destruct (truthy sender_arg).
    + rewrite filter_In. intros [H _]. now apply In_firstn_nth.
    + apply In_firstn_nth.
Qed.

(** C9 after a merge.  Ten stream frames store ten messages from Alice,
    the first of them under the id 0_1700000005123; then a
    [fetch_sms_threads] call brings a message from the bank, the eleventh
    and newest insertion, and puts it at index 10.  With [limit = 10]
    and [sender = "bank"] nothing is listed, although the newest inserted
    message is from the bank; with [sender = "alice"] the listing holds
    the message of the first frame, the oldest of the eleven insertions,
    whose insertion position is 10.  The slice follows the array, and
    after a merge the array does not follow the order of insertion. *)
Theorem C9_newest_inserted_match_not_listed :
  let merge := Samples.fetchThreads "t1" "Bank" "Your code is 482913" 1700000000 in
  let w1 := run Samples.clock0 initialWorld (firstn 1 Samples.ten) in
  let w10 := run Samples.clock0 initialWorld Samples.ten in
  let w := step Samples.clock0 w10 merge in
  ids (smsMessages w1) = [js "0_1700000005123"] /\
  List.length (smsMessages w10) = 10%nat /\
  findById (js "t1") (smsMessages w10) = None /\
  List.length (smsMessages w) = 11%nat /\
  (exists sms,
      nth_error (smsMessages w) 10 = Some sms /\ id sms = js "t1" /\
      includesIgnoreCase Runtime.asciiLower (sender sms) (js "bank") = true) /\
  recentMessages Runtime.asciiLower (Some 10) (Some (js "bank")) (smsMessages w) = [] /\
  In (js "0_1700000005123")
     (ids (recentMessages Runtime.asciiLower (Some 10) (Some (js "alice"))
                          (smsMessages w))).
Proof.
  cbv zeta.
  split; [vm_compute; reflexivity |]. split; [vm_compute; reflexivity |].
  split; [vm_compute; reflexivity |]. split; [vm_compute; reflexivity |].
  split; [eexists; split; [vm_compute; reflexivity |];
          split; vm_compute; reflexivity |].
  split; [vm_compute; reflexivity |].
  vm_compute. do 9 right. now left.
Qed.

(** On the same store the entries listed for "alice" stand at the
    indices 0 to 9 of the array. *)
Lemma listing_filters_the_slice_example :
  let w := run Samples.clock0 initialWorld
               (Samples.ten ++
                [Samples.fetchThreads "t1" "Bank" "Your code is 482913" 1700000000]) in
  forall sms,
    In sms (recentMessages Runtime.asciiLower (Some 10) (Some (js "alice"))
                           (smsMessages w)) ->
    exists i, (i < 10)%nat /\ nth_error (smsMessages w) i = Some sms.
Proof.
  cbv zeta.
  apply (listing_filters_the_slice Runtime.asciiLower (Some 10) (Some (js "alice")) _).
  reflexivity.
Defined.

(* ================================================================== *)
(** * Further properties of the code *)

(** ** The store under stream frames and poll responses *)

(** X1: as long as no [fetch_sms_threads] call takes part, the store
    never holds more than a hundred messages, whatever frames and poll
    responses arrive and in whatever order. *)
Theorem X1_runs_without_merge_bounded
    (clock : nat -> Z) (evs : list Event) (w : World) :
  bounded w ->
  forallb (fun ev => negb (isThreadsCall ev)) evs = true ->
  bounded (run clock w evs).
Proof.
  revert w. induction evs as [|ev evs IH]; intros w Hw Hevs; [exact Hw |].
  cbn [forallb] in Hevs. apply andb_prop in Hevs. destruct Hevs as [Hev Hevs].
  change (run clock w (ev :: evs)) with (run clock (step clock w ev) evs).
  apply IH; [| exact Hevs].
  apply stream_and_poll_bounded; [| exact Hw].
  intros limit dev thr ->. discriminate Hev.
Qed.

Lemma X1_runs_without_merge_bounded_witness :
  bounded (run Samples.clock0 initialWorld
               (Samples.hundredFrames ++
                [PushesFetched (Samples.pollFive 1700000000); WsClose])) /\
  List.length (smsMessages
                 (run Samples.clock0 initialWorld
                      (Samples.hundredFrames ++
                       [PushesFetched (Samples.pollFive 1700000000); WsClose])))
  = 100%nat.
Proof.
  split; [| vm_compute; reflexivity].
  apply X1_runs_without_merge_bounded.
  - unfold bounded. cbn [smsMessages initialWorld List.length]. unfold MAX_STORED_MESSAGES. lia.
  - vm_compute. reflexivity.
Defined.

Lemma streamNotifs_shown clock notifs w :
  bounded w ->
  map shown (smsMessages (streamNotifs clock notifs w))
  = firstn MAX_STORED_MESSAGES
           (rev (map shownOfNotif notifs) ++ map shown (smsMessages w)).
Proof.
  revert w. induction notifs as [|n notifs IH]; intros w Hw.
  - cbn [streamNotifs map rev List.app]. symmetry. apply firstn_all2.
    rewrite length_map. exact Hw.
  - cbn [streamNotifs Date_now]. rewrite IH by apply addSmsMessage_bounded.
    cbn [smsMessages setStore].
    rewrite addSmsMessage_firstn, <- firstn_map, firstn_app_firstn.
    cbn [map rev]. rewrite <- app_assoc. reflexivity.
Qed.

(** X2: the stream path stores every notification of a frame, the last
    one in front: afterwards the store shows the notifications in reverse
    order of arrival (a missing or empty title as "Unknown", a missing
    body as the empty text) before the older messages, cut to a hundred.
    Nothing is dropped for its content, and nothing but the oldest
    entries is evicted. *)
Theorem X2_stream_stores_every_notification
    (clock : nat -> Z) (notifs : list Notif.t) (w : World) :
  bounded w ->
  map shown (smsMessages (streamNotifs clock notifs w))
  = firstn MAX_STORED_MESSAGES
           (rev (map shownOfNotif notifs) ++ map shown (smsMessages w)) /\
  List.length (smsMessages (streamNotifs clock notifs w))
  = Nat.min MAX_STORED_MESSAGES (List.length notifs + List.length (smsMessages w)).
Proof.
  intros Hw. pose proof (streamNotifs_shown clock notifs w Hw) as E.
  split; [exact E |].
  apply (f_equal (@List.length _)) in E.
  rewrite length_map, length_firstn, length_app, length_rev, !length_map in E.
  exact E.
Qed.

Lemma X2_stream_stores_every_notification_witness :
  map shown (smsMessages
               (streamNotifs Samples.clock0
                  [Notif.mk (Some (js "7")) None None None;
                   Notif.mk None (Some (js "Carol")) (Some (js "hi")) None]
                  initialWorld))
  = [(js "Carol", js "hi", None); (js "Unknown", [], Some (js "7"))].
Proof.
  rewrite (proj1 (X2_stream_stores_every_notification Samples.clock0 _ initialWorld
                    ltac:(unfold bounded, MAX_STORED_MESSAGES; cbn; lia))).
  reflexivity.
Defined.

(* ================================================================== *)
(** ** The thread snapshot *)

Lemma mergeThreads_length messages store :
  (List.length (mergeThreads messages store)
   <= List.length store + List.length messages)%nat.
Proof.
  revert store. induction messages as [|m messages IH]; intros store;
    cbn [mergeThreads List.length]; [lia |].
  destruct (findById (id m) store).
  - specialize (IH store). lia.
  - specialize (IH (store ++ [m])). rewrite length_app in IH. cbn [List.length] in IH. lia.
Qed.

Lemma threadMessages_length threads acc r :
  threadMessages threads acc = Normal r ->
  (List.length r <= List.length acc + List.length threads)%nat.
Proof.
  revert acc. induction threads as [|t threads IH]; intros acc; cbn [threadMessages].
  - intros [= <-]. cbn [List.length]. lia.
  - destruct (Thread.latest t) as [la|].
    + destruct (JsDate.toISOString _); [| discriminate].
      intros H. apply IH in H. rewrite length_app in H. cbn [List.length] in *. lia.
    + intros H. apply IH in H. cbn [List.length]. lia.
Qed.

Lemma slice0_length {A} (a : list A) (e : Z) :
  (List.length (slice0 a e) <= List.length a)%nat /\
  (0 <= e -> Z.of_nat (List.length (slice0 a e)) <= e).
Proof.
  unfold slice0. rewrite length_firstn. split; [lia |].
  intros He. destruct (e <? 0) eqn:E; [apply Z.ltb_lt in E; lia |]. lia.
Qed.

Lemma fetchSmsFromApi_length limit dev thr :
  0 <= limit ->
  Z.of_nat (List.length (fetchSmsFromApi limit dev thr)) <= limit.
Proof.
  intros Hl. unfold fetchSmsFromApi.
  destruct (getDeviceIden dev); [| cbn [List.length]; lia].
  destruct thr as [|[|] threads]; try (cbn [List.length]; lia).
  destruct (threadMessages _ []) as [r|e] eqn:E; [| cbn [List.length]; lia].
  apply threadMessages_length in E. cbn [List.length] in E.
  match type of E with
  | (_ <= 0 + List.length (slice0 ?a _))%nat =>
      pose proof (proj2 (slice0_length a limit) Hl)
  end. lia.
Qed.

(** X3: a [fetch_sms_threads] call can push the store over the bound,
    but by no more than the number of threads asked for (20 by default):
    from a store within the bound it leaves at most [100 + limit]
    messages, and the next message that comes through [addSmsMessage]
    brings the store back to at most a hundred. *)
Theorem X3_merge_overshoot_is_bounded
    (limit : option Z) (dev : Fetched Device.t) (thr : Fetched Thread.t)
    (w : World) (next : Sms) :
  bounded w ->
  0 < limitOr limit 20 ->
  let w' := snd (fetch_sms_threads limit dev thr w) in
  Z.of_nat (List.length (smsMessages w')) <= 100 + limitOr limit 20 /\
  (List.length (addSmsMessage next (smsMessages w')) <= 100)%nat.
Proof.
  intros Hw Hl. cbv zeta. split; [| apply addSmsMessage_bounded].
  rewrite fetch_sms_threads_store.
  pose proof (mergeThreads_length (fetchSmsFromApi (limitOr limit 20) dev thr)
                                  (smsMessages w)) as H1.
  pose proof (fetchSmsFromApi_length (limitOr limit 20) dev thr ltac:(lia)) as H2.
  unfold bounded, MAX_STORED_MESSAGES in Hw. lia.
Qed.

Lemma X3_merge_overshoot_is_bounded_witness :
  let full := run Samples.clock0 initialWorld Samples.hundredFrames in
  let w' := snd (fetch_sms_threads None Samples.devices
                   (Samples.threads "t1" "Bank" "Your code is 482913" 1700000000)
                   full) in
  List.length (smsMessages w') = 101%nat /\
  Z.of_nat (List.length (smsMessages w')) <= 100 + 20.
Proof.
  cbv zeta. split; [vm_compute; reflexivity |].
  apply (X3_merge_overshoot_is_bounded None Samples.devices
           (Samples.threads "t1" "Bank" "Your code is 482913" 1700000000)
           (run Samples.clock0 initialWorld Samples.hundredFrames)
           (mkSms [] [] [] [] None None)).
  - unfold bounded. apply Nat.leb_le. vm_compute. reflexivity.
  - reflexivity.
Defined.

Lemma threadMessages_bad threads acc :
  existsb badLatest threads = true ->
  exists e, threadMessages threads acc = Throw e.
Proof.
  revert acc. induction threads as [|t threads IH]; intros acc; cbn [existsb];
    [discriminate |].
  intros H. cbn [threadMessages]. unfold badLatest in H.
  destruct (Thread.latest t) as [la|].
  - unfold JsDate.toISOString.
    destruct (JsDate.TimeClip (JsDate.times1000 (Thread.timestamp la))).
    + apply IH. exact H.
    + now exists RangeError.
  - apply IH. exact H.
Qed.

(** X4: one thread spoils the snapshot.  When a thread among those asked
    for has a latest message whose timestamp is missing or out of the
    range of dates, [fetchSmsFromApi] returns no message at all, also
    none of the well-formed threads, and the [fetch_sms_threads] call
    leaves the program state as it was. *)
Theorem X4_bad_thread_timestamp_empties_snapshot
    (limit : option Z) (dev : Fetched Device.t) (ok : bool)
    (threads : list Thread.t) (w : World) :
  existsb badLatest (slice0 threads (limitOr limit 20)) = true ->
  fetchSmsFromApi (limitOr limit 20) dev (Response ok (Some threads)) = [] /\
  snd (fetch_sms_threads limit dev (Response ok (Some threads)) w) = w.
Proof.
  intros Hbad.
  assert (E : fetchSmsFromApi (limitOr limit 20) dev (Response ok (Some threads)) = []).
  { unfold fetchSmsFromApi. destruct (getDeviceIden dev); [| reflexivity].
    destruct ok; [| reflexivity].
    destruct (threadMessages_bad _ [] Hbad) as [e ->]. reflexivity. }
  split; [exact E |]. unfold fetch_sms_threads. now rewrite E.
Qed.

Lemma X4_bad_thread_timestamp_empties_snapshot_witness :
  let good := Thread.mk (js "t1") None
                (Some (Thread.mkLatest (Some (js "hello")) (Some 1700000000))) in
  let bad := Thread.mk (js "t2") None
               (Some (Thread.mkLatest (Some (js "no time")) None)) in
  List.length (fetchSmsFromApi 20 Samples.devices (Response true (Some [good]))) = 1%nat /\
  fetchSmsFromApi (limitOr None 20) Samples.devices (Response true (Some [good; bad])) = [].
Proof.
  cbv zeta. split; [vm_compute; reflexivity |].
  apply (X4_bad_thread_timestamp_empties_snapshot None Samples.devices true _ initialWorld).
  vm_compute. reflexivity.
Defined.

Lemma threadMessages_ids threads acc :
  existsb badLatest threads = false ->
  exists r,
    threadMessages threads acc = Normal r /\
    map id r = map id acc ++ map Thread.id (filter hasLatest threads) /\
    map threadId r = map threadId acc ++
                     map (fun t => Some (Thread.id t)) (filter hasLatest threads).
Proof.
  revert acc. induction threads as [|t threads IH]; intros acc; cbn [existsb].
  - intros _. exists acc. cbn [threadMessages filter map]. now rewrite !app_nil_r.
  - intros H. apply orb_false_elim in H. destruct H as [Ht Hrest].
    cbn [threadMessages filter]. unfold badLatest in Ht.
    destruct (Thread.latest t) as [la|] eqn:Hla.
    + assert (Hhas : hasLatest t = true) by (unfold hasLatest; now rewrite Hla).
      rewrite Hhas. unfold JsDate.toISOString.
      destruct (JsDate.TimeClip (JsDate.times1000 (Thread.timestamp la)));
        [| discriminate].
      destruct (IH (acc ++ [{| id := Thread.id t;
                               sender := threadSender t;
                               body := orDefault (Thread.body la) [];
                               timestamp := JsDate.formatISO z;
                               threadId := Some (Thread.id t);
                               app := None |}]) Hrest) as (r & -> & Hid & Hth).
      exists r. split; [reflexivity |].
      rewrite Hid, Hth, !map_app. cbn [map id threadId].
      now rewrite <- !app_assoc.
    + assert (Hhas : hasLatest t = false) by (unfold hasLatest; now rewrite Hla).
      rewrite Hhas. apply IH. exact Hrest.
Qed.

(** X5: when a device is found, the response is ok and no thread asked
    for has a bad timestamp, the snapshot holds exactly one message for
    each of the first [limit] threads that has a latest message, in the
    order of the thread list, with the thread's id as message id and as
    thread id; threads without a latest message are skipped. *)
Theorem X5_snapshot_one_message_per_thread
    (limit : Z) (dev : Fetched Device.t) (threads : list Thread.t)
    (iden : jsstring) :
  getDeviceIden dev = Some iden ->
  existsb badLatest (slice0 threads limit) = false ->
  let messages := fetchSmsFromApi limit dev (Response true (Some threads)) in
  map id messages = map Thread.id (filter hasLatest (slice0 threads limit)) /\
  map threadId messages
  = map (fun t => Some (Thread.id t)) (filter hasLatest (slice0 threads limit)).
Proof.
  intros Hdev Hgood. cbv zeta. unfold fetchSmsFromApi. rewrite Hdev.
  destruct (threadMessages_ids _ [] Hgood) as (r & -> & Hid & Hth).
  split; assumption.
Qed.

Lemma X5_snapshot_one_message_per_thread_witness :
  let a := Thread.mk (js "a") None
             (Some (Thread.mkLatest (Some (js "one")) (Some 1700000000))) in
  let b := Thread.mk (js "b") None None in
  let c := Thread.mk (js "c") None
             (Some (Thread.mkLatest None (Some 1700000001))) in
  let d := Thread.mk (js "d") None
             (Some (Thread.mkLatest None (Some 1700000002))) in
  map id (fetchSmsFromApi 3 Samples.devices (Response true (Some [a; b; c; d])))
  = [js "a"; js "c"].
Proof.
  cbv zeta.
  match goal with
  | |- map id (fetchSmsFromApi _ _ (Response true (Some ?ths))) = _ =>
      exact (proj1 (X5_snapshot_one_message_per_thread 3 Samples.devices ths
                      (js "dev1") eq_refl eq_refl))
  end.
Defined.

(** X6: [getDeviceIden] looks at the first device that is active and has
    SMS, and at no other: devices before it are skipped, and when its
    [iden] is missing or empty the result is [null] whatever devices
    follow.  Without such a device, with a response that is not ok or
    after a failed request the result is [null] too. *)
Theorem X6_first_capable_device_decides
    (before after : list Device.t) (d : Device.t) :
  forallb (fun x => negb (smsCapable x)) before = true ->
  smsCapable d = true ->
  getDeviceIden (Response true (Some (before ++ d :: after)))
  = (if truthy (Device.iden d) then Device.iden d else None) /\
  getDeviceIden (Response true (Some before)) = None /\
  getDeviceIden (Response false (Some (before ++ d :: after))) = None.
Proof.
  intros Hbefore Hd.
  assert (Hfind : forall tail,
             find (fun x => Device.has_sms x && Device.active x) (before ++ tail)
             = find (fun x => Device.has_sms x && Device.active x) tail).
  { intros tail. induction before as [|x before IH]; [reflexivity |].
    cbn [forallb] in Hbefore. apply andb_prop in Hbefore.
    destruct Hbefore as [Hx Hrest]. cbn [List.app find].
    unfold smsCapable in Hx. apply negb_true_iff in Hx. rewrite Hx.
    now apply IH. }
  split; [| split].
  - unfold getDeviceIden. rewrite Hfind. cbn [find].
    unfold smsCapable in Hd. now rewrite Hd.
  - unfold getDeviceIden. rewrite <- (app_nil_r before), Hfind. reflexivity.
  - reflexivity.
Qed.

Lemma X6_first_capable_device_decides_witness :
  getDeviceIden
    (Response true
       (Some ([Device.mk true false (Some (js "old"))] ++
              Device.mk true true None ::
              [Device.mk true true (Some (js "phone"))])))
  = None.
Proof.
  apply (proj1 (X6_first_capable_device_decides
                  [Device.mk true false (Some (js "old"))]
                  [Device.mk true true (Some (js "phone"))]
                  (Device.mk true true None) eq_refl eq_refl)).
Defined.

(* ================================================================== *)
(** ** The poll path *)

Lemma pollNotif_dated m n s :
  dated (m, n) = true ->
  exists s1,
    pollNotif m n s = (s1, None) /\
    (Nat.min MAX_STORED_MESSAGES (List.length s) <= List.length s1)%nat /\
    ((List.length s1 < MAX_STORED_MESSAGES)%nat ->
     incl (ids s) (ids s1) /\ In (pollId m n) (ids s1)).
Proof.
  unfold dated, pollNotif, JsDate.toISOString. cbn [fst]. intros Hd.
  destruct (findById (pollId m n) s) as [found|] eqn:Hf.
  - exists s. split; [reflexivity |]. split; [lia |].
    intros _. split; [apply incl_refl |].
    destruct (in_dec (list_eq_dec N.eq_dec) (pollId m n) (ids s)) as [Hin | Hnot];
      [exact Hin |].
    apply findById_None in Hnot. congruence.
  - destruct (JsDate.TimeClip (JsDate.times1000 m)) as [t|]; [| discriminate].
    eexists. split; [reflexivity |].
    rewrite addSmsMessage_length. split; [lia |].
    intros Hlen. rewrite addSmsMessage_firstn, firstn_all2 by (cbn [List.length]; lia).
    split; [apply incl_tl, incl_refl | now left].
Qed.

Lemma pollNotifs_dated m ns s :
  (forall n, In n ns -> dated (m, n) = true) ->
  exists s1,
    pollNotifs m ns s = (s1, None) /\
    (Nat.min MAX_STORED_MESSAGES (List.length s) <= List.length s1)%nat /\
    ((List.length s1 < MAX_STORED_MESSAGES)%nat ->
     incl (ids s) (ids s1) /\ forall n, In n ns -> In (pollId m n) (ids s1)).
Proof.
  revert s. induction ns as [|n ns IH]; intros s Hd; cbn [pollNotifs].
  - exists s. split; [reflexivity |]. split; [lia |].
    intros _. split; [apply incl_refl | intros n []].
  - destruct (pollNotif_dated m n s (Hd n (or_introl eq_refl)))
      as (s0 & -> & Hlen0 & H0).
    destruct (IH s0 (fun x Hx => Hd x (or_intror Hx))) as (s1 & -> & Hlen1 & H1).
    exists s1. split; [reflexivity |]. split; [lia |].
    intros Hs1. destruct (H1 Hs1) as [Hincl1 Hin1].
    destruct (H0 ltac:(lia)) as [Hincl0 Hin0].
    split; [eapply incl_tran; eassumption |].
    intros x [<- | Hx]; [now apply Hincl1 | now apply Hin1].
Qed.

Lemma pollPushes_dated pushes s :
  forallb dated (pollItems pushes) = true ->
  exists s1,
    pollPushes pushes s = (s1, None) /\
    (Nat.min MAX_STORED_MESSAGES (List.length s) <= List.length s1)%nat /\
    ((List.length s1 < MAX_STORED_MESSAGES)%nat ->
     incl (ids s) (ids s1) /\
     forall item, In item (pollItems pushes) -> In (itemId item) (ids s1)).
Proof.
  revert s. induction pushes as [|p pushes IH]; intros s Hd;
    cbn [pollPushes pollItems] in *.
  - exists s. split; [reflexivity |]. split; [lia |].
    intros _. split; [apply incl_refl | intros item []].
  - rewrite forallb_app in Hd. apply andb_prop in Hd. destruct Hd as [Hp Hrest].
    destruct (optEq (Push.type p) (js "sms_changed"));
      [destruct (Push.notifications p) as [notifs|] |].
    + assert (Hn : forall n, In n notifs -> dated (Push.modified p, n) = true).
      { intros n Hn. rewrite forallb_forall in Hp. apply Hp.
        apply in_map_iff. now exists n. }
      destruct (pollNotifs_dated (Push.modified p) notifs s Hn)
        as (s0 & -> & Hlen0 & H0).
      destruct (IH s0 Hrest) as (s1 & -> & Hlen1 & H1).
      exists s1. split; [reflexivity |]. split; [lia |].
      intros Hs1. destruct (H1 Hs1) as [Hincl1 Hin1].
      destruct (H0 ltac:(lia)) as [Hincl0 Hin0].
      split; [eapply incl_tran; eassumption |].
      intros item Hitem. apply in_app_or in Hitem. destruct Hitem as [Hitem | Hitem].
      * apply in_map_iff in Hitem. destruct Hitem as (n & <- & Hin).
        apply Hincl1. now apply Hin0.
      * now apply Hin1.
    + destruct (IH s Hrest) as (s1 & -> & Hlen1 & H1).
      exists s1. split; [reflexivity |]. split; [lia |]. exact H1.
    + destruct (IH s Hrest) as (s1 & -> & Hlen1 & H1).
      exists s1. split; [reflexivity |]. split; [lia |]. exact H1.
Qed.

Lemma pollNotifs_known m ns s :
  (forall n, In n ns -> In (pollId m n) (ids s)) ->
  pollNotifs m ns s = (s, None).
Proof.
  induction ns as [|n ns IH]; intros Hk; cbn [pollNotifs]; [reflexivity |].
  rewrite pollNotif_known by (apply Hk; now left).
  apply IH. intros x Hx. apply Hk. now right.
Qed.

Lemma pollPushes_known pushes s :
  (forall item, In item (pollItems pushes) -> In (itemId item) (ids s)) ->
  pollPushes pushes s = (s, None).
Proof.
  induction pushes as [|p pushes IH]; intros Hk; cbn [pollPushes pollItems] in *;
    [reflexivity |].
  assert (Hrest : forall item, In item (pollItems pushes) -> In (itemId item) (ids s))
    by (intros item Hitem; apply Hk, in_or_app; now right).
  destruct (optEq (Push.type p) (js "sms_changed"));
    [destruct (Push.notifications p) as [notifs|] |]; try (now apply IH).
  rewrite pollNotifs_known; [now apply IH |].
  intros n Hn. apply (Hk (Push.modified p, n)). apply in_or_app. left.
  apply in_map_iff. now exists n.
Qed.

(** X7: a poll response delivered again adds nothing.  When every push
    of the response has a valid [modified] and the store stays below a
    hundred after the first delivery, a second delivery of the same
    response, as every tickle causes, leaves the program state as it
    is. *)
Theorem X7_repeated_poll_adds_nothing (pushes : list Push.t) (w : World) :
  let w1 := fetchRecentPushes (Response true (Some pushes)) w in
  forallb dated (pollItems pushes) = true ->
  (List.length (smsMessages w1) < MAX_STORED_MESSAGES)%nat ->
  fetchRecentPushes (Response true (Some pushes)) w1 = w1.
Proof.
  cbv zeta. intros Hd. unfold fetchRecentPushes.
  destruct (pollPushes_dated pushes (smsMessages w) Hd) as (s1 & E & _ & H1).
  rewrite E. cbn [fst smsMessages setStore]. intros Hlen.
  rewrite pollPushes_known by (apply H1; exact Hlen).
  reflexivity.
Qed.

Lemma X7_repeated_poll_adds_nothing_witness :
  let pushes :=
    [Samples.smsChanged (Some 1700000000)
       [Samples.notif (js "5") "Bank" "Your code is 482913";
        Samples.notif (js "6") "Alice" "hello"];
     Samples.smsChanged (Some 1700000007)
       [Samples.notif (js "5") "Bank" "Never share this code"]] in
  let w1 := fetchRecentPushes (Response true (Some pushes)) initialWorld in
  ids (smsMessages w1) = [js "5_1700000007"; js "6_1700000000"; js "5_1700000000"] /\
  fetchRecentPushes (Response true (Some pushes)) w1 = w1.
Proof.
  cbv zeta. split; [vm_compute; reflexivity |].
  apply X7_repeated_poll_adds_nothing.
  - vm_compute. reflexivity.
  - apply Nat.ltb_lt. vm_compute. reflexivity.
Defined.




(* ================================================================== *)
(** ** Stream frames *)

(** X9: a frame that is neither an [sms_changed] push with notifications
    nor a mirror push of the package com.android.mms is not taken for a
    message: heartbeats, tickles, pushes of other types and mirrors of
    other packages leave the store and the clock alone.  A tickle only
    starts a poll. *)
Theorem X9_other_frames_store_nothing
    (clock : nat -> Z) (msg : Frame.t) (w : World) :
  carriesSms msg = false ->
  smsMessages (handlePushbulletMessage clock msg w) = smsMessages w /\
  clockReads (handlePushbulletMessage clock msg w) = clockReads w /\
  wsConnected (handlePushbulletMessage clock msg w) = wsConnected w /\
  fetchesStarted (handlePushbulletMessage clock msg w)
  = (if optEq (Frame.type msg) (js "tickle") && optEq (Frame.subtype msg) (js "push")
     then S (fetchesStarted w) else fetchesStarted w).
Proof.
  unfold carriesSms, handlePushbulletMessage. intros H.
  destruct (optEq (Frame.type msg) (js "tickle") && optEq (Frame.subtype msg) (js "push"));
    [repeat split |].
  destruct (optEq (Frame.type msg) (js "push")); [| repeat split].
  destruct (Frame.push msg) as [push|]; [| repeat split].
  cbn [andb] in H. apply orb_false_elim in H. destruct H as [Hsms Hmirror].
  rewrite Hmirror.
  destruct (optEq (Push.type push) (js "sms_changed")); [| repeat split].
  destruct (Push.notifications push); [discriminate Hsms | repeat split].
Qed.

Lemma X9_other_frames_store_nothing_witness :
  let nop := Frame.mk (Some (js "nop")) None None in
  let other := Frame.mk (Some (js "push")) None
                 (Some (Push.mk (Some (js "mirror")) None
                          (Some (js "com.google.android.apps.messaging"))
                          (Some (js "Bank")) (Some (js "Your code is 482913"))
                          (Some (js "Messages")) None)) in
  smsMessages (handlePushbulletMessage Samples.clock0 nop initialWorld) = [] /\
  smsMessages (handlePushbulletMessage Samples.clock0 other initialWorld) = [].
Proof.
  cbv zeta. split.
  - apply (X9_other_frames_store_nothing Samples.clock0
             (Frame.mk (Some (js "nop")) None None) initialWorld eq_refl).
  - match goal with
    | |- smsMessages (handlePushbulletMessage _ ?m _) = _ =>
        apply (X9_other_frames_store_nothing Samples.clock0 m initialWorld eq_refl)
    end.
Defined.

(* ================================================================== *)
(** ** Waiting *)

Section WaitMore.
Variable clock : nat -> Z.
Variable toLowerCase : jsstring -> jsstring.
Variable Date_parse : jsstring -> option Z.

(** X10: the first loop of [waitForSms] has no test of age.  The first
    stored message that passes the filter (with no filter: the message
    at index 0) is returned at once, however old its timestamp and
    whatever the timeout; nothing is waited for, and the program state
    changes by the one reading of the clock only. *)
Theorem X10_stored_match_returned_at_once
    (filter : option Filter) (timeoutMs : Z) (sleeps : list (list Event))
    (w : World) (before : list Sms) (sms : Sms) (rest : list Sms) :
  smsMessages w = before ++ sms :: rest ->
  scanExisting toLowerCase filter before = Normal None ->
  passes toLowerCase filter (Some sms) = Normal true ->
  waitForSms clock toLowerCase Date_parse filter timeoutMs sleeps w
  = (Returned (Some sms), snd (Date_now clock w)).
Proof.
  intros Hstore Hbefore Hsms. unfold waitForSms. cbn [Date_now smsMessages snd].
  rewrite Hstore.
  assert (E : scanExisting toLowerCase filter (before ++ sms :: rest)
              = Normal (Some sms)).
  { clear Hstore. induction before as [|b before IH].
    - simpl. now rewrite Hsms.
    - destruct (scanExisting_none toLowerCase _ _ _ Hbefore) as [Hb Hrest].
      simpl. rewrite Hb. now apply IH. }
  now rewrite E.
Qed.

(** X11: a round of the polling loop returns the message at index 0
    when that message passes the filter and is fresh.  So when no stored
    message passes the filter at the start, the timeout has not run out
    at the first test and the first sleep ends with such a message in
    front, it is returned after that sleep, whatever the number of stored
    messages. *)
Theorem X11_fresh_front_arrival_is_returned
    (filter : option Filter) (timeoutMs : Z)
    (evs : list Event) (sleeps : list (list Event)) (w : World)
    (sms : Sms) (rest : list Sms) (msgTime : Z) :
  scanExisting toLowerCase filter (smsMessages w) = Normal None ->
  clock (S (clockReads w)) - clock (clockReads w) < timeoutMs ->
  smsMessages (run clock (snd (Date_now clock (snd (Date_now clock w)))) evs)
  = sms :: rest ->
  (List.length (smsMessages w) <= List.length (sms :: rest) + 4)%nat ->
  passes toLowerCase filter (Some sms) = Normal true ->
  Date_parse (timestamp sms) = Some msgTime ->
  clock (clockReads w) - 60000 < msgTime ->
  fst (waitForSms clock toLowerCase Date_parse filter timeoutMs (evs :: sleeps) w)
  = Returned (Some sms).
Proof.
  intros Hnone Htime Hstore Hlen Hpass Hparse Hfresh.
  unfold waitForSms.
  cbn [Date_now smsMessages clockReads pollLoop snd] in *.
  rewrite Hnone.
  cbn [Date_now smsMessages clockReads pollLoop snd].
  apply Z.ltb_lt in Htime. rewrite Htime. rewrite Hstore.
  unfold scanBound.
  destruct (Z.to_nat (Z.of_nat (List.length (sms :: rest))
                      - Z.of_nat (List.length (smsMessages w)) + 5)) as [|b] eqn:Hb;
    [lia |].
  cbn [scanNew nth_error]. rewrite Hpass, Hparse.
  apply Z.ltb_lt in Hfresh. rewrite Hfresh. reflexivity.
Qed.

Lemma pollLoop_null_is_timeout filter timeoutMs startTime count sleeps w :
  fst (pollLoop clock toLowerCase Date_parse filter timeoutMs startTime
                count sleeps w) = Returned None ->
  let w' := snd (pollLoop clock toLowerCase Date_parse filter timeoutMs startTime
                          count sleeps w) in
  (0 < clockReads w')%nat /\
  timeoutMs <= clock (pred (clockReads w')) - startTime.
Proof.
  revert w. induction sleeps as [|evs sleeps IH]; intros w;
    cbn [pollLoop Date_now];
    destruct (clock (clockReads w) - startTime <? timeoutMs) eqn:Ht;
    cbn [fst snd clockReads]; try discriminate.
  - intros _. apply Z.ltb_ge in Ht. cbn [pred]. split; [lia | lia].
  - destruct (scanNew _ _ _ _ _ _ _) as [[m|]|e]; cbn [fst snd]; try discriminate.
    apply IH.
  - intros _. apply Z.ltb_ge in Ht. cbn [pred]. split; [lia | lia].
Qed.

(** X12: with five or more messages stored when the wait starts, none
    of which passes the filter, [waitForSms] never rejects; and when it
    returns [null], the clock reading that ended its loop was at least
    [timeoutMs] after the reading taken at the start.  So [null] means
    timeout. *)
Theorem X12_long_store_null_means_timeout
    (filter : option Filter) (timeoutMs : Z)
    (sleeps : list (list Event)) (w : World) :
  (5 <= List.length (smsMessages w))%nat ->
  scanExisting toLowerCase filter (smsMessages w) = Normal None ->
  let result := waitForSms clock toLowerCase Date_parse filter timeoutMs sleeps w in
  (forall e, fst result <> Rejected e) /\
  (fst result = Returned None ->
   timeoutMs <= clock (pred (clockReads (snd result))) - clock (clockReads w)).
Proof.
  intros Hlong Hnone. cbv zeta. unfold waitForSms.
  cbn [Date_now smsMessages clockReads]. rewrite Hnone. split.
  - intros e. now apply pollLoop_long_store_no_throw.
  - intros H. now apply pollLoop_null_is_timeout in H.
Qed.

End WaitMore.

Lemma X10_stored_match_returned_at_once_witness :
  let w := fetchRecentPushes (Samples.pollFive 0)
             (run Samples.clock0 initialWorld Samples.ten) in
  nth_error (map timestamp (smsMessages w)) 0 = Some (js "1970-01-01T00:00:00.000Z") /\
  (exists sms,
      fst (waitForSms Samples.clock0 Runtime.asciiLower Runtime.parseISO
                      None (-1) [] w) = Returned (Some sms) /\
      timestamp sms = js "1970-01-01T00:00:00.000Z") /\
  (exists sms,
      fst (waitForSms Samples.clock0 Runtime.asciiLower Runtime.parseISO
                      (Some {| f_sender := Some (js "ALICE"); f_contains := None;
                               f_hasCode := false |}) 60000 [] w)
      = Returned (Some sms) /\
      id sms = js "9_1700000005123").
Proof.
  cbv zeta. split; [vm_compute; reflexivity |]. split.
  - eexists. split; [| shelve].
    match goal with
    | |- fst (waitForSms _ _ _ _ _ _ ?w) = _ =>
        rewrite (X10_stored_match_returned_at_once Samples.clock0 Runtime.asciiLower
                   Runtime.parseISO None (-1) [] w []
                   (mkSms (js "5_0") (js "Bank") (js "Your code is 482913")
                          (js "1970-01-01T00:00:00.000Z") (Some (js "5")) None)
                   (smsMessages (run Samples.clock0 initialWorld Samples.ten)))
    end.
    + reflexivity.
    + vm_compute. reflexivity.
    + reflexivity.
    + reflexivity.
  - eexists. split; [| shelve].
    match goal with
    | |- fst (waitForSms _ _ _ ?f _ _ ?w) = _ =>
        rewrite (X10_stored_match_returned_at_once Samples.clock0 Runtime.asciiLower
                   Runtime.parseISO f 60000 [] w
                   [mkSms (js "5_0") (js "Bank") (js "Your code is 482913")
                          (js "1970-01-01T00:00:00.000Z") (Some (js "5")) None]
                   (mkSms (js "9_1700000005123") (js "Alice") (js "hello")
                          (js "2023-11-14T22:13:25.123Z") (Some (js "9")) None)
                   (skipn 1 (smsMessages (run Samples.clock0 initialWorld Samples.ten))))
    end.
    + reflexivity.
    + vm_compute. reflexivity.
    + vm_compute. reflexivity.
    + vm_compute. reflexivity.
    Unshelve. all: reflexivity.
Defined.

Lemma X11_fresh_front_arrival_is_returned_witness :
  exists sms,
    fst (waitForSms Samples.clock0 Runtime.asciiLower Runtime.parseISO
                    Samples.fromBank 5000
                    [[Samples.streamFrame
                        [Samples.notif (js "5") "Bank" "Your code is 482913"]]]
                    initialWorld)
    = Returned (Some sms) /\
    body sms = js "Your code is 482913".
Proof.
  eexists. split.
  - apply (X11_fresh_front_arrival_is_returned Samples.clock0 Runtime.asciiLower
             Runtime.parseISO Samples.fromBank 5000
             [Samples.streamFrame
                [Samples.notif (js "5") "Bank" "Your code is 482913"]]
             [] initialWorld
             (mkSms (js "5_1700000005123") (js "Bank") (js "Your code is 482913")
                    (js "2023-11-14T22:13:25.123Z") (Some (js "5")) None)
             [] 1700000005123).
    + reflexivity.
    + vm_compute. reflexivity.
    + vm_compute. reflexivity.
    + cbn [List.length smsMessages initialWorld]. lia.
    + vm_compute. reflexivity.
    + vm_compute. reflexivity.
    + vm_compute. reflexivity.
  - reflexivity.
Defined.

Lemma X12_long_store_null_means_timeout_witness :
  let ticking := fun n => 1700000005123 + 1000 * Z.of_nat (n - 20) in
  let w10 := run ticking initialWorld Samples.ten in
  let result := waitForSms ticking Runtime.asciiLower Runtime.parseISO
                           Samples.fromBank 3000 [[]; []; []] w10 in
  fst result = Returned None /\
  3000 <= ticking (pred (clockReads (snd result))) - ticking (clockReads w10).
Proof.
  cbv zeta. split; [vm_compute; reflexivity |].
  apply (X12_long_store_null_means_timeout
           (fun n => 1700000005123 + 1000 * Z.of_nat (n - 20))
           Runtime.asciiLower Runtime.parseISO Samples.fromBank 3000 [[]; []; []]
           (run (fun n => 1700000005123 + 1000 * Z.of_nat (n - 20))
                initialWorld Samples.ten)).
  - apply Nat.leb_le. vm_compute. reflexivity.
  - vm_compute. reflexivity.
  - vm_compute. reflexivity.
Defined.

(* ================================================================== *)
(** ** The filter *)

(** X13: the filter is the conjunction of the sub-filters that are set.
    A stored message passes exactly when its sender contains the wanted
    sender (if one is given), its body contains the wanted text (if one
    is given), both without regard to case as [toLowerCase] defines it,
    and, with [hasCode], the extractor finds a code in the body, which
    is then a run of 4 to 8 digits of the body.  The test never throws
    on a stored message. *)
Theorem X13_filter_is_conjunction
    (toLowerCase : jsstring -> jsstring) (m : Sms) (f : Filter) :
  (exists b, matchesFilter toLowerCase (Some m) f = Normal b) /\
  (matchesFilter toLowerCase (Some m) f = Normal true <->
   (truthy (f_sender f) = true ->
    includesIgnoreCase toLowerCase (sender m) (orDefault (f_sender f) []) = true) /\
   (truthy (f_contains f) = true ->
    includesIgnoreCase toLowerCase (body m) (orDefault (f_contains f) []) = true) /\
   (f_hasCode f = true ->
    exists code pre post,
      extractVerificationCode (body m) = Some code /\
      body m = pre ++ code ++ post /\
      forallb isDigit code = true /\
      (4 <= List.length code <= 8)%nat)).
Proof.
  split; [apply (passes_defined toLowerCase (Some f) m) |].
  unfold matchesFilter.
  destruct (truthy (f_sender f)) eqn:Hs;
    destruct (includesIgnoreCase toLowerCase (sender m) (orDefault (f_sender f) []))
      eqn:His;
    cbn [andb negb];
    try (split; [discriminate | intros (H & _); specialize (H eq_refl); discriminate]);
    (destruct (truthy (f_contains f)) eqn:Hc;
     destruct (includesIgnoreCase toLowerCase (body m) (orDefault (f_contains f) []))
       eqn:Hic;
     cbn [andb negb];
     try (split; [discriminate
                 | intros (_ & H & _); specialize (H eq_refl); discriminate]));
    (destruct (f_hasCode f) eqn:Hh;
     [ destruct (extractVerificationCode (body m)) as [code|] eqn:He;
       [ destruct (firstMatch_digits patterns (body m) code (fun re H => H) He)
           as (pre & post & Hbody & Hdig & Hlen);
         destruct code as [|c code];
         [ cbn [List.length] in Hlen; lia
         | split; [intros _ | reflexivity];
           repeat split; try reflexivity; try discriminate;
           intros _; exists (c :: code), pre, post; repeat split;
           solve [assumption | lia] ]
       | split; [discriminate
                | intros (_ & _ & H); destruct (H eq_refl) as (code & _ & _ & H' & _);
                  discriminate] ]
     | split; [intros _ | reflexivity];
       repeat split; try reflexivity; try discriminate ]).
Qed.

Lemma X13_filter_is_conjunction_witness :
  let m := mkSms (js "5_1") (js "My Bank") (js "Your code is 482913")
                 (js "2023-11-14T22:13:20.000Z") (Some (js "5")) None in
  matchesFilter Runtime.asciiLower (Some m)
    {| f_sender := Some (js "BANK"); f_contains := Some (js "code");
       f_hasCode := true |} = Normal true /\
  matchesFilter Runtime.asciiLower (Some m)
    {| f_sender := Some (js "BANK"); f_contains := Some (js "pin");
       f_hasCode := true |} = Normal false.
Proof.
  cbv zeta. split; [| vm_compute; reflexivity].
  apply (proj2 (X13_filter_is_conjunction Runtime.asciiLower _ _)).
  split; [| split].
  - intros _. vm_compute. reflexivity.
  - intros _. vm_compute. reflexivity.
  - intros _. exists (js "482913"), (js "Your code is "), [].
    repeat split; try (vm_compute; reflexivity); cbn; lia.
Defined.

(* ================================================================== *)
(** ** The listing *)

(** X14: the limit of [get_recent_sms] at its edges.  A limit of 0 counts
    as absent and gives the default of ten; a limit of at least the size
    of the store lists the whole store; a negative limit [-k] lists all
    but the last [k] messages of the array rather than nothing. *)
Theorem X14_listing_limit_edges
    (toLowerCase : jsstring -> jsstring) (store : list Sms) :
  recentMessages toLowerCase (Some 0) None store = firstn 10 store /\
  recentMessages toLowerCase None None store = firstn 10 store /\
  (forall l, 0 < l -> Z.of_nat (List.length store) <= l ->
             recentMessages toLowerCase (Some l) None store = store) /\
  (forall k, 0 < k ->
             recentMessages toLowerCase (Some (- k)) None store
             = firstn (List.length store - Z.to_nat k) store).
Proof.
  unfold recentMessages. cbn [truthy limitOr].
  split; [apply (slice0_positive store 10); lia |].
  split; [apply (slice0_positive store 10); lia |].
  split.
  - intros l Hl Hlen. destruct l as [|p|p]; try lia.
    rewrite slice0_positive by lia. apply firstn_all2. lia.
  - intros k Hk. destruct k as [|p|p]; try lia. cbn [Z.opp].
    unfold slice0. cbn [Z.ltb Z.compare]. f_equal. lia.
Qed.

Lemma X14_listing_limit_edges_witness :
  let store := smsMessages (run Samples.clock0 initialWorld Samples.ten) in
  List.length (recentMessages Runtime.asciiLower (Some (- 3)) None store) = 7%nat /\
  recentMessages Runtime.asciiLower (Some 50) None store = store.
Proof.
  cbv zeta. split.
  - rewrite (proj2 (proj2 (proj2 (X14_listing_limit_edges Runtime.asciiLower _))) 3)
      by lia.
    vm_compute. reflexivity.
  - apply (proj1 (proj2 (proj2 (X14_listing_limit_edges Runtime.asciiLower _))) 50).
    + lia.
    + vm_compute. discriminate.
Defined.

(* ================================================================== *)
(** ** Insertion and lookup *)

(** X15: what [addSmsMessage] has just put in is what a lookup by its id
    finds, also when an older message has the same id; and while the
    store holds fewer than a hundred messages the insertion changes the
    lookup of no other id. *)
Theorem X15_lookup_after_insert (sms : Sms) (store : list Sms) (i : jsstring) :
  findById (id sms) (addSmsMessage sms store) = Some sms /\
  ((List.length store < MAX_STORED_MESSAGES)%nat -> i <> id sms ->
   findById i (addSmsMessage sms store) = findById i store).
Proof.
  rewrite addSmsMessage_cons. unfold findById. cbn [find].
  split; [now rewrite eqb_refl |].
  intros Hlen Hi.
  destruct (JsString.eqb (id sms) i) eqn:E;
    [apply eqb_eq in E; congruence |].
  rewrite firstn_all2 by (unfold MAX_STORED_MESSAGES in *; lia). reflexivity.
Qed.

Lemma X15_lookup_after_insert_witness :
  let old := mkSms (js "a") (js "Alice") (js "one") [] None None in
  let new := mkSms (js "b") (js "Bob") (js "two") [] None None in
  findById (js "b") (addSmsMessage new [old]) = Some new /\
  findById (js "a") (addSmsMessage new [old]) = Some old.
Proof.
  cbv zeta. split.
  - apply (proj1 (X15_lookup_after_insert
                    (mkSms (js "b") (js "Bob") (js "two") [] None None)
                    [mkSms (js "a") (js "Alice") (js "one") [] None None] (js "a"))).
  - rewrite (proj2 (X15_lookup_after_insert
                      (mkSms (js "b") (js "Bob") (js "two") [] None None)
                      [mkSms (js "a") (js "Alice") (js "one") [] None None] (js "a"))).
    + reflexivity.
    + cbn. unfold MAX_STORED_MESSAGES. lia.
    + vm_compute. discriminate.
Defined.

(* ================================================================== *)
(** ** The extractor on a text of digits *)

Lemma execFrom_success_at re prev s g :
  execFrom re prev s = Some g ->
  exists skipped rest,
    s = skipped ++ rest /\
    matchNodes (ignoreCase re) (nodes re) (lastOf skipped prev) rest None None
    = Some g.
Proof.
  revert prev. induction s as [|c s IH]; intros prev; cbn [execFrom].
  - destruct (matchNodes _ _ prev [] None None) eqn:Hm; [| discriminate].
    intros [= <-]. now exists [], [].
  - destruct (matchNodes _ _ prev (c :: s) None None) eqn:Hm.
    + intros [= <-]. now exists [], (c :: s).
    + intros H. destruct (IH _ H) as (skipped & rest & -> & Hm').
      exists (c :: skipped), rest. split; [reflexivity |].
      now rewrite lastOf_cons.
Qed.

Lemma isDigit_isWord c : isDigit c = true -> isWord (Some c) = true.
Proof.
  intros H. cbn [isWord]. rewrite H. now rewrite !orb_true_r.
Qed.

Lemma lastOf_digit l p :
  forallb isDigit l = true -> l <> [] -> isWord (lastOf l p) = true.
Proof.
  intros Hd Hl. unfold lastOf.
  destruct (rev l) as [|c r] eqn:E.
  - apply (f_equal (@rev N)) in E. rewrite rev_involutive in E. now destruct Hl.
  - apply isDigit_isWord. rewrite forallb_forall in Hd. apply Hd.
    apply in_rev. rewrite E. now left.
Qed.

Lemma hd_digit l :
  forallb isDigit l = true -> isWord (hd_error l) = negb (Nat.eqb (List.length l) 0).
Proof.
  destruct l as [|c l]; [reflexivity |]. cbn [forallb hd_error List.length].
  intros H. apply andb_prop in H. destruct H as [Hc _].
  now rewrite isDigit_isWord.
Qed.

Lemma recordAll_nil grp : recordAll [] grp = grp.
Proof. now destruct grp. Qed.

(** The repetition takes a whole run that fits its bounds when the rest
    of the pattern matches behind the run. *)
Lemma repeatSet_takes_all ic cs lo hi k s prev grp n r :
  forallb (inSet ic cs) s = true ->
  (lo <= n + List.length s <= hi)%nat ->
  k (lastOf s prev) [] (recordAll s grp) = Some r ->
  repeatSet ic cs lo (Some hi) k s prev grp n = Some r.
Proof.
  revert prev grp n. induction s as [|c s IH]; intros prev grp n Hset Hlen Hk;
    cbn [repeatSet].
  - cbn [List.length] in Hlen. rewrite recordAll_nil in Hk.
    replace (Nat.leb lo n) with true by (symmetry; apply Nat.leb_le; lia).
    exact Hk.
  - cbn [forallb] in Hset. apply andb_prop in Hset. destruct Hset as [Hc Hs].
    cbn [List.length] in Hlen. cbn [underHi].
    replace (Nat.ltb n hi) with true by (symmetry; apply Nat.ltb_lt; lia).
    rewrite Hc. cbn [andb].
    rewrite lastOf_cons, recordAll_cons in Hk.
    rewrite (IH (Some c) (record c grp) (S n)); [reflexivity | assumption | lia |].
    exact Hk.
Qed.

Lemma forallb_app_l {A} (f : A -> bool) (a b : list A) :
  forallb f (a ++ b) = true -> forallb f a = true /\ forallb f b = true.
Proof. rewrite forallb_app. apply andb_prop. Qed.

(** On a text of digits the pattern for a bare run of [k] digits matches
    exactly when the text has [k] digits, and then takes all of it. *)
Lemma bare_on_digits k d :
  (0 < k)%nat -> forallb isDigit d = true ->
  String_match d (pat_bare k)
  = if Nat.eqb (List.length d) k then Some (Some d) else None.
Proof.
  intros Hk Hd. destruct (Nat.eqb (List.length d) k) eqn:Hlen.
  - apply Nat.eqb_eq in Hlen. unfold String_match.
    destruct d as [|c d']; [cbn [List.length] in Hlen; lia |].
    set (d := c :: d') in *.
    assert (Hm : matchNodes false (nodes (pat_bare k)) None d None None
                 = Some (Some d)).
    { unfold pat_bare, digits. cbn [nodes List.app matchNodes].
      rewrite (hd_digit d Hd). unfold d at 1. cbn [List.length Nat.eqb negb isWord xorb].
      apply repeatSet_takes_all; [exact Hd | lia |].
      cbn [matchNodes hd_error isWord].
      rewrite lastOf_digit by (assumption || discriminate).
      cbn [xorb]. unfold recordAll. cbn [option_map].
      now rewrite app_nil_r, rev_involutive. }
    unfold d at 1. cbn [execFrom]. fold d. cbn [ignoreCase pat_bare] in *.
    now rewrite Hm.
  - destruct (String_match d (pat_bare k)) as [g|] eqn:Hm; [| reflexivity].
    exfalso. apply Nat.eqb_neq in Hlen. apply Hlen.
    apply execFrom_success_at in Hm. destruct Hm as (skipped & rest & -> & Hm).
    destruct (forallb_app_l _ _ _ Hd) as [Hskip Hrest].
    unfold pat_bare, digits in Hm. cbn [nodes ignoreCase List.app matchNodes] in Hm.
    destruct (xorb (isWord (lastOf skipped None)) (isWord (hd_error rest))) eqn:Hb;
      [| discriminate].
    apply repeatSet_success in Hm.
    destruct Hm as (taken & rest2 & -> & Htaken & Hlo & Hhi & Hm).
    specialize (Hhi k eq_refl ltac:(lia)).
    destruct (forallb_app_l _ _ _ Hrest) as [_ Hrest2].
    cbn [matchNodes] in Hm.
    destruct (xorb (isWord (lastOf taken (lastOf skipped None)))
                   (isWord (hd_error rest2))) eqn:Hb2; [| discriminate].
    assert (Htk : taken <> []) by (intros ->; cbn [List.length] in Hlo; lia).
    rewrite lastOf_digit in Hb2 by assumption.
    rewrite (hd_digit rest2 Hrest2) in Hb2.
    rewrite (hd_digit _ Hrest), length_app in Hb.
    replace (Nat.eqb (List.length taken + List.length rest2) 0) with false in Hb
      by (symmetry; apply Nat.eqb_neq; destruct taken; [now destruct Htk |];
          cbn [List.length]; lia).
    destruct skipped as [|c skipped].
    + destruct rest2 as [|c2 rest2]; [| discriminate Hb2].
      rewrite app_nil_r. cbn [List.app]. lia.
    + rewrite lastOf_digit in Hb by (assumption || discriminate). discriminate Hb.
Qed.

Lemma digit_not_literal x c :
  isDigit c = true -> isDigit x = false -> isDigit (canonicalize x) = false ->
  inSet true (CChar x) c = false.
Proof.
  intros Hc Hx Hcx. cbn [inSet].
  destruct (N.eqb_spec (canonicalize x) (canonicalize c)) as [E|]; [| reflexivity].
  exfalso. unfold canonicalize at 2 in E. unfold isDigit in Hc.
  apply andb_prop in Hc. destruct Hc as [H1 H2].
  apply N.leb_le in H1. apply N.leb_le in H2.
  destruct (N.leb_spec 97 c); [lia |]. cbn [andb] in E.
  rewrite E in Hcx. unfold isDigit in Hcx.
  apply andb_false_iff in Hcx. destruct Hcx as [Ha | Ha]; apply N.leb_gt in Ha; lia.
Qed.

Lemma digit_not_space c : isDigit c = true -> isSpace c = false.
Proof.
  unfold isDigit, isSpace. intros H. apply andb_prop in H. destruct H as [H1 H2].
  apply N.leb_le in H1. apply N.leb_le in H2.
  repeat match goal with
         | |- context [N.leb ?a ?b] => destruct (N.leb_spec a b)
         | |- context [N.eqb ?a ?b] => destruct (N.eqb_spec a b)
         end; try reflexivity; lia.
Qed.

(** A pattern item that wants at least one character of a set that holds
    no digit fails on a text of digits. *)
Lemma repeatSet_no_digit ic cs lo hi k s prev grp :
  (0 < lo)%nat ->
  (forall c, isDigit c = true -> inSet ic cs c = false) ->
  forallb isDigit s = true ->
  repeatSet ic cs lo hi k s prev grp 0 = None.
Proof.
  intros Hlo Hcs Hs.
  destruct (repeatSet ic cs lo hi k s prev grp 0) as [r|] eqn:E; [| reflexivity].
  exfalso. apply repeatSet_success in E.
  destruct E as (taken & rest & -> & Hset & Hlen & _ & _).
  destruct taken as [|c taken]; [cbn [List.length] in Hlen; lia |].
  cbn [forallb List.app] in *. apply andb_prop in Hset. apply andb_prop in Hs.
  destruct Hset as [Hc _]. destruct Hs as [Hd _].
  rewrite (Hcs c Hd) in Hc. discriminate.
Qed.

Lemma phrase_on_digits re d :
  In re [pat_code; pat_is_your; pat_verify] ->
  forallb isDigit d = true ->
  String_match d re = None.
Proof.
  intros Hre Hd.
  destruct (String_match d re) as [g|] eqn:Hm; [| reflexivity].
  exfalso. apply execFrom_success_at in Hm.
  destruct Hm as (skipped & rest & -> & Hm).
  destruct (forallb_app_l _ _ _ Hd) as [_ Hrest].
  destruct Hre as [<- | [<- | [<- | []]]].
  - cbn [nodes ignoreCase pat_code lits js list_ascii_of_string map List.app
         matchNodes] in Hm.
    rewrite repeatSet_no_digit in Hm; [discriminate | lia | | exact Hrest].
    intros c Hc. apply digit_not_literal; [exact Hc | reflexivity | reflexivity].
  - unfold pat_is_your, digits in Hm.
    cbn [nodes ignoreCase List.app matchNodes] in Hm.
    apply repeatSet_success in Hm.
    destruct Hm as (taken & rest2 & -> & _ & _ & _ & Hm).
    destruct (forallb_app_l _ _ _ Hrest) as [_ Hrest2].
    cbn [matchNodes] in Hm.
    rewrite repeatSet_no_digit in Hm; [discriminate | lia | | exact Hrest2].
    intros c Hc. cbn [inSet]. now apply digit_not_space.
  - cbn [nodes ignoreCase pat_verify lits js list_ascii_of_string map List.app
         matchNodes] in Hm.
    rewrite repeatSet_no_digit in Hm; [discriminate | lia | | exact Hrest].
    intros c Hc. apply digit_not_literal; [exact Hc | reflexivity | reflexivity].
Qed.

(** X16: on a text that consists of decimal digits only, the extractor
    returns the whole text when it has 4, 6 or 8 digits and nothing
    otherwise: a message that is just a 5-digit or a 7-digit number gives
    no code, although the phrase patterns take runs of 4 to 8 digits. *)
Theorem X16_digits_only_text (d : jsstring) :
  forallb isDigit d = true ->
  extractVerificationCode d
  = (if Nat.eqb (List.length d) 4 || Nat.eqb (List.length d) 6 ||
        Nat.eqb (List.length d) 8
     then Some d else None).
Proof.
  intros Hd. unfold extractVerificationCode, patterns.
  change pat_6_digits with (pat_bare 6).
  change pat_4_digits with (pat_bare 4).
  change pat_8_digits with (pat_bare 8).
  cbn [firstMatch].
  rewrite !bare_on_digits by (assumption || lia).
  rewrite !phrase_on_digits by (assumption || cbn [In]; tauto).
  destruct (Nat.eqb (List.length d) 6) eqn:H6.
  - now rewrite orb_true_r.
  - destruct (Nat.eqb (List.length d) 4) eqn:H4; [reflexivity |].
    destruct (Nat.eqb (List.length d) 8); reflexivity.
Qed.

Lemma X16_digits_only_text_witness :
  extractVerificationCode (js "12345") = None /\
  extractVerificationCode (js "1234567") = None /\
  extractVerificationCode (js "12345678") = Some (js "12345678") /\
  extractVerificationCode (js "code 12345") = Some (js "12345").
Proof.
  split; [exact (X16_digits_only_text (js "12345") eq_refl) |].
  split; [exact (X16_digits_only_text (js "1234567") eq_refl) |].
  split; [exact (X16_digits_only_text (js "12345678") eq_refl) |].
  vm_compute. reflexivity.
Defined.

(* ================================================================== *)
(** ** One notification on both channels *)

Lemma to_int_not_nil n :
  Z.to_int n <> Decimal.Pos Decimal.Nil /\ Z.to_int n <> Decimal.Neg Decimal.Nil.
Proof.
  pose proof (DecimalZ.to_of (Z.to_int n)) as H. rewrite DecimalZ.of_to in H.
  split; intros E; rewrite E in H; discriminate H.
Qed.

Lemma js_inj a b : js a = js b -> a = b.
Proof.
  unfold js. intros H.
  rewrite <- (string_of_list_ascii_of_string a), <- (string_of_list_ascii_of_string b).
  f_equal. revert H.
  generalize (list_ascii_of_string a) (list_ascii_of_string b).
  intros l. induction l as [|x l IH]; intros [|y l']; cbn [map]; try discriminate;
    [reflexivity |].
  intros [= Hxy Hl]. f_equal; [| now apply IH].
  rewrite <- (ascii_N_embedding x), <- (ascii_N_embedding y). now rewrite Hxy.
Qed.

(** The decimal writing of a whole number determines the number. *)
Lemma ofZ_inj a b : ofZ a = ofZ b -> a = b.
Proof.
  unfold ofZ. intros H. apply js_inj in H.
  apply DecimalZ.to_int_inj.
  destruct (to_int_not_nil a) as [Ha1 Ha2]. destruct (to_int_not_nil b) as [Hb1 Hb2].
  pose proof (NilZero.isi _ Ha1 Ha2) as Ia. pose proof (NilZero.isi _ Hb1 Hb2) as Ib.
  rewrite H in Ia. congruence.
Qed.

(** X17: the two channels do not recognise each other's messages.  A
    notification stored from the stream, under an id made from the local
    clock in milliseconds, and listed afterwards by a poll with
    [modified = m] is stored a second time unless the clock reading
    happened to equal [m]: the store then shows the same sender, body and
    thread twice, under two ids. *)
Theorem X17_stream_then_poll_stores_twice
    (clock : nat -> Z) (notif : Notif.t) (m : Z) (w : World) :
  (List.length (smsMessages w) + 2 <= MAX_STORED_MESSAGES)%nat ->
  dated (Some m, notif) = true ->
  ~ In (pollId (Some m) notif) (ids (smsMessages w)) ->
  clock (clockReads w) <> m ->
  let push := Push.mk (Some (js "sms_changed")) (Some [notif]) None None None None
                      (Some m) in
  let w2 := fetchRecentPushes (Response true (Some [push]))
                              (streamNotifs clock [notif] w) in
  exists viaPoll viaStream,
    smsMessages w2 = viaPoll :: viaStream :: smsMessages w /\
    shown viaPoll = shown viaStream /\
    id viaPoll <> id viaStream.
Proof.
  intros Hlen Hdated Hnew Hclock. cbv zeta.
  cbn [streamNotifs Date_now setStore smsMessages clockReads fetchRecentPushes].
  set (viaStream := {| id := interp (Notif.thread_id notif) ++ js "_" ++
                            ofZ (clock (clockReads w));
                       sender := orDefault (Notif.title notif) (js "Unknown");
                       body := orDefault (Notif.body notif) [];
                       timestamp := JsDate.formatISO (clock (S (clockReads w)));
                       threadId := Notif.thread_id notif;
                       app := None |}).
  assert (Hids : id viaStream <> pollId (Some m) notif).
  { unfold viaStream, pollId. cbn [id]. intros E.
    apply app_inv_head, app_inv_head, ofZ_inj in E. contradiction. }
  rewrite (addSmsMessage_firstn viaStream), firstn_all2
    by (cbn [List.length]; unfold MAX_STORED_MESSAGES in *; lia).
  change (optEq (Push.type _) (js "sms_changed")) with true.
  cbn [pollPushes Push.type Push.notifications Push.modified pollNotifs].
  change (optEq (Some (js "sms_changed")) (js "sms_changed")) with true.
  cbn [pollNotifs]. unfold pollNotif.
  assert (Hfind : findById (pollId (Some m) notif) (viaStream :: smsMessages w) = None).
  { apply findById_None. cbn [ids map]. intros [E | E]; [now apply Hids | now apply Hnew]. }
  rewrite Hfind. unfold dated in Hdated. cbn [fst] in Hdated.
  unfold JsDate.toISOString.
  destruct (JsDate.TimeClip (JsDate.times1000 (Some m))) as [t|]; [| discriminate].
  cbn [fst smsMessages].
  rewrite addSmsMessage_firstn, firstn_all2
    by (cbn [List.length]; unfold MAX_STORED_MESSAGES in *; lia).
  eexists. exists viaStream. split; [reflexivity |].
  split; [reflexivity |]. cbn [id]. intros E. apply Hids. now symmetry.
Qed.

Lemma X17_stream_then_poll_stores_twice_witness :
  let n := Samples.notif (js "5") "Bank" "Your code is 482913" in
  let w2 := fetchRecentPushes (Samples.pollFive 1700000000)
              (streamNotifs Samples.clock0 [n] initialWorld) in
  exists viaPoll viaStream,
    smsMessages w2 = [viaPoll; viaStream] /\
    shown viaPoll = shown viaStream /\
    id viaPoll <> id viaStream.
Proof.
  cbv zeta.
  apply (X17_stream_then_poll_stores_twice Samples.clock0
           (Samples.notif (js "5") "Bank" "Your code is 482913")
           1700000000 initialWorld).
  - cbn [List.length smsMessages initialWorld]. unfold MAX_STORED_MESSAGES. lia.
  - vm_compute. reflexivity.
  - intros [].
  - vm_compute. discriminate.
Defined.

(* ================================================================== *)
(** ** What every stored message has *)

Lemma orDefault_nonempty o d : d <> [] -> orDefault o d <> [].
Proof. intros Hd. destruct o as [[|c s]|]; cbn [orDefault]; congruence. Qed.

Lemma threadSender_nonempty t : threadSender t <> [].
Proof.
  unfold threadSender.
  destruct (truthy _) eqn:E.
  - match goal with
    | |- orDefault ?o [] <> [] => destruct o as [[|c s]|]; cbn in E |- *; congruence
    end.
  - apply orDefault_nonempty. discriminate.
Qed.

Lemma formatISO_nonempty t : JsDate.formatISO t <> [].
Proof.
  unfold JsDate.formatISO. destruct (JsDate.civil _) as [[y m] d].
  intros E. apply (f_equal (@List.length N)) in E.
  rewrite !length_app in E. cbn [List.length js list_ascii_of_string map] in E. lia.
Qed.

Lemma addSmsMessage_Forall (P : Sms -> Prop) sms s :
  P sms -> Forall P s -> Forall P (addSmsMessage sms s).
Proof.
  intros Hsms Hs. rewrite addSmsMessage_firstn.
  apply Forall_forall. intros x Hx. apply In_firstn_In in Hx.
  destruct Hx as [<- | Hx]; [exact Hsms |].
  rewrite Forall_forall in Hs. now apply Hs.
Qed.

Lemma mergeThreads_Forall (P : Sms -> Prop) messages s :
  Forall P messages -> Forall P s -> Forall P (mergeThreads messages s).
Proof.
  intros Hm Hs.
  destruct (mergeThreads_appends messages s) as (added & -> & Hadded & _).
  apply Forall_app. split; [exact Hs |].
  apply Forall_forall. intros x Hx. rewrite Forall_forall in Hm.
  apply Hm. now destruct (Hadded x Hx).
Qed.

Lemma threadMessages_presentable threads acc r :
  threadMessages threads acc = Normal r ->
  Forall presentable acc -> Forall presentable r.
Proof.
  revert acc. induction threads as [|t threads IH]; intros acc; cbn [threadMessages].
  - now intros [= <-].
  - destruct (Thread.latest t) as [la|]; [| apply IH].
    unfold JsDate.toISOString.
    destruct (JsDate.TimeClip _) as [z|]; [| discriminate].
    intros H Hacc. apply (IH _ H). apply Forall_app. split; [exact Hacc |].
    constructor; [| constructor]. split; cbn [sender timestamp].
    + apply threadSender_nonempty.
    + apply formatISO_nonempty.
Qed.

Lemma fetchSmsFromApi_presentable limit dev thr :
  Forall presentable (fetchSmsFromApi limit dev thr).
Proof.
  unfold fetchSmsFromApi.
  destruct (getDeviceIden dev); [| constructor].
  destruct thr as [|[|] threads]; try constructor.
  destruct (threadMessages _ []) as [r|e] eqn:E; [| constructor].
  eapply threadMessages_presentable; [exact E | constructor].
Qed.

Lemma pollPushes_presentable pushes s :
  Forall presentable s -> Forall presentable (fst (pollPushes pushes s)).
Proof.
  assert (Hnotif : forall m n s0,
             Forall presentable s0 -> Forall presentable (fst (pollNotif m n s0))).
  { intros m n s0 Hs0. unfold pollNotif.
    destruct (findById _ s0); [exact Hs0 |].
    unfold JsDate.toISOString. destruct (JsDate.TimeClip _); [| exact Hs0].
    cbn [fst]. apply addSmsMessage_Forall; [| exact Hs0].
    split; cbn [sender timestamp];
      [apply orDefault_nonempty; discriminate | apply formatISO_nonempty]. }
  assert (Hnotifs : forall m ns s0,
             Forall presentable s0 -> Forall presentable (fst (pollNotifs m ns s0))).
  { intros m ns. induction ns as [|n ns IH]; intros s0 Hs0; cbn [pollNotifs];
      [exact Hs0 |].
    pose proof (Hnotif m n s0 Hs0) as H1.
    destruct (pollNotif m n s0) as [s1 [e|]]; cbn [fst] in *; [exact H1 | now apply IH]. }
  revert s. induction pushes as [|p pushes IH]; intros s Hs; cbn [pollPushes];
    [exact Hs |].
  destruct (optEq (Push.type p) (js "sms_changed"));
    [destruct (Push.notifications p) as [notifs|] |]; try (now apply IH).
  pose proof (Hnotifs (Push.modified p) notifs s Hs) as H1.
  destruct (pollNotifs (Push.modified p) notifs s) as [s1 [e|]]; cbn [fst] in *;
    [exact H1 | now apply IH].
Qed.

Lemma handlePushbulletMessage_presentable clock msg w :
  Forall presentable (smsMessages w) ->
  Forall presentable (smsMessages (handlePushbulletMessage clock msg w)).
Proof.
  assert (Hnotifs : forall notifs w0,
             Forall presentable (smsMessages w0) ->
             Forall presentable (smsMessages (streamNotifs clock notifs w0))).
  { intros notifs. induction notifs as [|n notifs IH]; intros w0 Hw0; [exact Hw0 |].
    cbn [streamNotifs Date_now]. apply IH. cbn [smsMessages setStore].
    apply addSmsMessage_Forall; [| exact Hw0].
    split; cbn [sender timestamp];
      [apply orDefault_nonempty; discriminate | apply formatISO_nonempty]. }
  intros Hw. unfold handlePushbulletMessage.
  destruct (_ && _); [exact Hw |].
  destruct (optEq (Frame.type msg) (js "push")); [| exact Hw].
  destruct (Frame.push msg) as [push|]; [| exact Hw].
  assert (H1 : Forall presentable
                 (smsMessages
                    (if optEq (Push.type push) (js "sms_changed")
                     then match Push.notifications push with
                          | Some notifs => streamNotifs clock notifs w
                          | None => w
                          end
                     else w))).
  { destruct (optEq (Push.type push) (js "sms_changed")); [| exact Hw].
    destruct (Push.notifications push); [now apply Hnotifs | exact Hw]. }
  destruct (_ && _); [| exact H1].
  unfold streamMirror. cbn [Date_now smsMessages setStore].
  apply addSmsMessage_Forall; [| exact H1].
  split; cbn [sender timestamp];
    [apply orDefault_nonempty; discriminate | apply formatISO_nonempty].
Qed.

(** X18: in every state the program can reach, whatever frames, poll
    responses and [fetch_sms_threads] calls brought it there, each stored
    message names a sender ("Unknown" at the least) and carries a
    timestamp; only the body can be empty. *)
Theorem X18_stored_messages_are_presentable
    (clock : nat -> Z) (evs : list Event) (w : World) :
  Forall presentable (smsMessages w) ->
  Forall presentable (smsMessages (run clock w evs)).
Proof.
  revert w. induction evs as [|ev evs IH]; intros w Hw; [exact Hw |].
  change (run clock w (ev :: evs)) with (run clock (step clock w ev) evs).
  apply IH. destruct ev as [| |[msg|]|r|limit dev thr]; cbn [step smsMessages];
    try exact Hw.
  - now apply handlePushbulletMessage_presentable.
  - destruct r as [|[|] pushes]; cbn [fetchRecentPushes smsMessages setStore];
      try exact Hw.
    now apply pollPushes_presentable.
  - rewrite fetch_sms_threads_store.
    apply mergeThreads_Forall; [apply fetchSmsFromApi_presentable | exact Hw].
Qed.

Lemma X18_stored_messages_are_presentable_witness :
  let w := run Samples.clock0 initialWorld
               [Samples.streamFrame [Notif.mk None None None None];
                Samples.fetchThreads "t1" "" "" 1700000000] in
  map sender (smsMessages w) = [js "Unknown"; js "Unknown"] /\
  Forall presentable (smsMessages w).
Proof.
  cbv zeta. split; [vm_compute; reflexivity |].
  apply X18_stored_messages_are_presentable. constructor.
Defined.

(* ================================================================== *)
(** ** The order in which a poll stores *)

Lemma pollNotifs_fresh m ns s :
  (forall n, In n ns -> dated (m, n) = true) ->
  NoDup (map (pollId m) ns ++ ids s) ->
  (List.length ns + List.length s <= MAX_STORED_MESSAGES)%nat ->
  exists s1,
    pollNotifs m ns s = (s1, None) /\
    ids s1 = rev (map (pollId m) ns) ++ ids s.
Proof.
  revert s. induction ns as [|n ns IH]; intros s Hd Hnd Hlen; cbn [pollNotifs].
  - now exists s.
  - cbn [map List.app] in Hnd. apply NoDup_cons_iff in Hnd. destruct Hnd as [Hn Hnd].
    unfold pollNotif.
    assert (Hnew : findById (pollId m n) s = None).
    { apply findById_None. intros Hin. apply Hn. apply in_or_app. now right. }
    rewrite Hnew. specialize (Hd n (or_introl eq_refl)) as Hdn.
    unfold dated in Hdn. cbn [fst] in Hdn. unfold JsDate.toISOString.
    destruct (JsDate.TimeClip (JsDate.times1000 m)) as [t|] eqn:Ht; [| discriminate].
    cbn [List.length] in Hlen.
    rewrite addSmsMessage_firstn, firstn_all2
      by (cbn [List.length]; unfold MAX_STORED_MESSAGES in *; lia).
    match goal with
    | |- context [pollNotifs m ns (?sms :: s)] =>
        destruct (IH (sms :: s)) as (s1 & -> & Hids)
    end.
    + intros x Hx. apply Hd. now right.
    + cbn [ids map id].
      apply (NoDup_Add (Add_app (pollId m n) (map (pollId m) ns) (map id s))).
      split; assumption.
    + cbn [List.length]. lia.
    + exists s1. split; [reflexivity |].
      rewrite Hids. cbn [ids map id rev]. now rewrite <- app_assoc.
Qed.

Lemma NoDup_app_drop_middle {A} (a b c : list A) :
  NoDup (a ++ b ++ c) -> NoDup (a ++ c).
Proof.
  induction a as [|x a IH]; cbn [List.app].
  - apply NoDup_app_remove_l.
  - rewrite !NoDup_cons_iff. intros [Hx Hnd]. split; [| now apply IH].
    intros Hin. apply Hx. apply in_app_or in Hin.
    apply in_or_app. destruct Hin as [Hin | Hin]; [now left | right].
    apply in_or_app. now right.
Qed.

Lemma pollPushes_fresh pushes s :
  forallb dated (pollItems pushes) = true ->
  NoDup (map itemId (pollItems pushes) ++ ids s) ->
  (List.length (pollItems pushes) + List.length s <= MAX_STORED_MESSAGES)%nat ->
  exists s1,
    pollPushes pushes s = (s1, None) /\
    ids s1 = rev (map itemId (pollItems pushes)) ++ ids s.
Proof.
  revert s. induction pushes as [|p pushes IH]; intros s Hd Hnd Hlen;
    cbn [pollPushes pollItems] in *.
  - now exists s.
  - rewrite forallb_app in Hd. apply andb_prop in Hd. destruct Hd as [Hp Hrest].
    rewrite map_app, <- app_assoc in Hnd. rewrite length_app in Hlen.
    destruct (optEq (Push.type p) (js "sms_changed"));
      [destruct (Push.notifications p) as [notifs|] |];
      try (cbn [map List.app List.length] in *;
           destruct (IH s Hrest Hnd ltac:(lia)) as (s1 & -> & Hids);
           exists s1; split; [reflexivity | exact Hids]).
    rewrite map_map in Hnd. rewrite length_map in Hlen.
    change (fun x => itemId (Push.modified p, x)) with (pollId (Push.modified p)) in Hnd.
    assert (Hdn : forall n, In n notifs -> dated (Push.modified p, n) = true).
    { intros n Hn. rewrite forallb_forall in Hp. apply Hp.
      apply in_map_iff. now exists n. }
    destruct (pollNotifs_fresh (Push.modified p) notifs s Hdn
                (NoDup_app_drop_middle _ _ _ Hnd) ltac:(lia)) as (s0 & -> & Hids0).
    assert (Hlen0 : List.length s0 = (List.length notifs + List.length s)%nat).
    { apply (f_equal (@List.length _)) in Hids0. unfold ids in Hids0.
      rewrite length_app, length_rev, !length_map in Hids0. exact Hids0. }
    destruct (IH s0 Hrest) as (s1 & -> & Hids1).
    + rewrite Hids0.
      eapply Permutation.Permutation_NoDup; [| exact Hnd].
      eapply Permutation.perm_trans; [apply Permutation.Permutation_app_swap_app |].
      apply Permutation.Permutation_app_head, Permutation.Permutation_app_tail.
      apply Permutation.Permutation_rev.
    + lia.
    + exists s1. split; [reflexivity |].
      rewrite Hids1, Hids0, !map_app, rev_app_distr, map_map, <- app_assoc.
      reflexivity.
Qed.

(** X19: a poll stores the new notifications of a response in front of
    the store in the reverse of the order in which the response lists
    them.  When all listed notifications are dated, new and pairwise
    different and the store has room for them, the ids of the store
    afterwards are those of the listed notifications, last listed first,
    followed by the ids that were there; a response that lists the
    newest push first thus leaves the oldest one in front. *)
Theorem X19_poll_stores_in_reverse_of_listing (pushes : list Push.t) (w : World) :
  forallb dated (pollItems pushes) = true ->
  NoDup (map itemId (pollItems pushes) ++ ids (smsMessages w)) ->
  (List.length (pollItems pushes) + List.length (smsMessages w)
   <= MAX_STORED_MESSAGES)%nat ->
  ids (smsMessages (fetchRecentPushes (Response true (Some pushes)) w))
  = rev (map itemId (pollItems pushes)) ++ ids (smsMessages w).
Proof.
  intros Hd Hnd Hlen. unfold fetchRecentPushes.
  destruct (pollPushes_fresh pushes (smsMessages w) Hd Hnd Hlen) as (s1 & -> & Hids).
  exact Hids.
Qed.

Lemma X19_poll_stores_in_reverse_of_listing_witness :
  let newest := Samples.smsChanged (Some 1700000007)
                  [Samples.notif (js "5") "Bank" "Never share this code"] in
  let oldest := Samples.smsChanged (Some 1700000000)
                  [Samples.notif (js "5") "Bank" "Your code is 482913"] in
  ids (smsMessages (fetchRecentPushes (Response true (Some [newest; oldest]))
                                      initialWorld))
  = [js "5_1700000000"; js "5_1700000007"].
Proof.
  cbv zeta.
  match goal with
  | |- ids (smsMessages (fetchRecentPushes (Response true (Some ?ps)) _)) = _ =>
      rewrite (X19_poll_stores_in_reverse_of_listing ps initialWorld)
  end.
  - reflexivity.
  - vm_compute. reflexivity.
  - vm_compute. repeat constructor; cbn [In]; intros H;
      repeat (destruct H as [H | H]; [discriminate H |]); exact H.
  - apply Nat.leb_le. vm_compute. reflexivity.
Defined.

(* ================================================================== *)
(** ** The extraction tool *)

(** X20: [extract_code_from_sms] answers every text with a text, never
    with an error: "Extracted verification code: " followed by a run of
    4 to 8 digits of the given text, or the notice that no code was
    found, the latter exactly when the extractor finds none. *)
Theorem X20_extract_tool_reply (text : jsstring) :
  (exists code pre post,
      extract_code_from_sms (Some text)
      = ToolText (js "Extracted verification code: " ++ code) /\
      extractVerificationCode text = Some code /\
      text = pre ++ code ++ post /\
      forallb isDigit code = true /\
      (4 <= List.length code <= 8)%nat) \/
  (extract_code_from_sms (Some text)
   = ToolText (js "No verification code found in the provided text.") /\
   extractVerificationCode text = None).
Proof.
  unfold extract_code_from_sms.
  destruct (extractVerificationCode text) as [code|] eqn:He; [left | now right].
  destruct (firstMatch_digits patterns text code (fun re H => H) He)
    as (pre & post & Htext & Hdig & Hlen).
  destruct code as [|c code]; [cbn [List.length] in Hlen; lia |].
  exists (c :: code), pre, post. repeat split; solve [assumption | lia].
Qed.

(* ================================================================== *)
(** ** The snapshot after real-time reception *)

(** X21: the merge of [fetch_sms_threads] does not recognise a message
    that came in real time.  The stream path files a message of thread
    [T] under the id [T_<clock>], the snapshot files the thread's latest
    message under the id [T]; so unless the store already held the id
    [T], the snapshot's message is appended although the stream may
    have brought the very same text. *)
Theorem X21_snapshot_repeats_realtime_message
    (clock : nat -> Z) (notif : Notif.t) (T : jsstring)
    (limit : option Z) (dev : Fetched Device.t) (thr : Fetched Thread.t)
    (msg : Sms) (w : World) :
  Notif.thread_id notif = Some T ->
  fetchSmsFromApi (limitOr limit 20) dev thr = [msg] ->
  id msg = T ->
  ~ In T (ids (smsMessages w)) ->
  let w1 := streamNotifs clock [notif] w in
  smsMessages (snd (fetch_sms_threads limit dev thr w1)) = smsMessages w1 ++ [msg].
Proof.
  intros Hthread Hfetch Hid Hnew. cbv zeta.
  rewrite fetch_sms_threads_store, Hfetch. cbn [mergeThreads].
  assert (Hfind : findById (id msg) (smsMessages (streamNotifs clock [notif] w)) = None).
  { apply findById_None. cbn [streamNotifs Date_now setStore smsMessages].
    rewrite addSmsMessage_firstn. unfold ids. rewrite <- firstn_map.
    intros Hin. apply In_firstn_In in Hin. cbn [map id] in Hin.
    destruct Hin as [E | Hin]; [| rewrite Hid in Hin; now apply Hnew].
    rewrite Hthread, Hid in E. cbn [interp] in E.
    apply (f_equal (@List.length N)) in E.
    rewrite !length_app in E. cbn [List.length js list_ascii_of_string map] in E. lia. }
  now rewrite Hfind.
Qed.

Lemma X21_snapshot_repeats_realtime_message_witness :
  let n := Samples.notif (js "5") "Bank" "Your code is 482913" in
  let w1 := streamNotifs Samples.clock0 [n] initialWorld in
  let w2 := snd (fetch_sms_threads None Samples.devices
                   (Samples.threads "5" "Bank" "Your code is 482913" 1700000000) w1) in
  map body (smsMessages w2) = [js "Your code is 482913"; js "Your code is 482913"] /\
  ids (smsMessages w2) = [js "5_1700000005123"; js "5"].
Proof.
  cbv zeta.
  rewrite (X21_snapshot_repeats_realtime_message Samples.clock0
             (Samples.notif (js "5") "Bank" "Your code is 482913") (js "5")
             None Samples.devices
             (Samples.threads "5" "Bank" "Your code is 482913" 1700000000)
             (mkSms (js "5") (js "Bank") (js "Your code is 482913")
                    (js "2023-11-14T22:13:20.000Z") (Some (js "5")) None)
             initialWorld eq_refl eq_refl eq_refl (fun H => H)).
  split; vm_compute; reflexivity.
Defined.
